(** * libstratcom: the HID report codec and the event-diff engine

    A shallow embedding of [src/stratcom.cpp].  Fixed-width integers are
    values of [Z] with the conversions of C++ written out, the cached device
    state is a record, the transport (hidapi) is represented by the values
    its calls return, and the event list lives in an explicit heap of
    [stratcom_input_event] nodes with a failing allocator. *)

From Stdlib Require Import ZArith List Lia Bool.
From stdpp Require Import base gmap.
From Equations Require Import Equations.
Import ListNotations.

Local Open Scope Z_scope.

(** ** Fixed-width integers *)

(** Conversion to [std::uint8_t]. *)
Definition to_u8 (z : Z) : Z := z mod 2 ^ 8.

(** Conversion to [std::uint16_t]. *)
Definition to_u16 (z : Z) : Z := z mod 2 ^ 16.

(** Conversion to a signed 16-bit word (two's complement wrap-around). *)
Definition to_i16 (z : Z) : Z := (z + 2 ^ 15) mod 2 ^ 16 - 2 ^ 15.

Definition is_u8 (z : Z) : Prop := 0 <= z < 2 ^ 8.
Definition is_u16 (z : Z) : Prop := 0 <= z < 2 ^ 16.

(** ** Enumerations of the public header *)

Inductive stratcom_return : Set :=
| STRATCOM_RET_SUCCESS
| STRATCOM_RET_ERROR
| STRATCOM_RET_NO_DATA.

Inductive stratcom_led_state : Set :=
| STRATCOM_LED_ON
| STRATCOM_LED_OFF
| STRATCOM_LED_BLINK.

Inductive stratcom_slider_state : Set :=
| STRATCOM_SLIDER_UNKNOWN
| STRATCOM_SLIDER_1
| STRATCOM_SLIDER_2
| STRATCOM_SLIDER_3.

Inductive stratcom_axis : Set :=
| STRATCOM_AXIS_X
| STRATCOM_AXIS_Y
| STRATCOM_AXIS_Z.

(** A C enumeration is an integer: buttons and LED selectors are kept as
    their integer values, so that values outside the enumeration exist. *)
Definition stratcom_button : Set := Z.
Definition stratcom_button_led : Set := Z.

(** Modelled from the spec: the enumerators of [stratcom_button] are declared
    in the header [stratcom.h], which is not part of the sources.  The button
    word is a 12-bit mask [0000 6666 5555 5555] over twelve logical buttons
    and an enumerator is the mask of its button, taken in the canonical order
    button-1..button-6, plus, minus, shift1..shift3, rec; NONE is the empty
    mask. *)
Definition STRATCOM_BUTTON_1 : stratcom_button := 0x0001.
Definition STRATCOM_BUTTON_2 : stratcom_button := 0x0002.
Definition STRATCOM_BUTTON_3 : stratcom_button := 0x0004.
Definition STRATCOM_BUTTON_4 : stratcom_button := 0x0008.
Definition STRATCOM_BUTTON_5 : stratcom_button := 0x0010.
Definition STRATCOM_BUTTON_6 : stratcom_button := 0x0020.
Definition STRATCOM_BUTTON_PLUS : stratcom_button := 0x0040.
Definition STRATCOM_BUTTON_MINUS : stratcom_button := 0x0080.
Definition STRATCOM_BUTTON_SHIFT1 : stratcom_button := 0x0100.
Definition STRATCOM_BUTTON_SHIFT2 : stratcom_button := 0x0200.
Definition STRATCOM_BUTTON_SHIFT3 : stratcom_button := 0x0400.
Definition STRATCOM_BUTTON_REC : stratcom_button := 0x0800.
Definition STRATCOM_BUTTON_NONE : stratcom_button := 0.

(** Modelled from the spec: the enumerators of [stratcom_button_led] are
    declared in the header [stratcom.h], which is not part of the sources.
    Every button owns two adjacent bits of the 16-bit LED word, the low one
    for "on" and the next one for "blink"; an enumerator is the mask of the
    "on" bit of its button, ALL is the union of the seven "on" bits and NONE
    is the empty mask. *)
Definition STRATCOM_LEDBUTTON_1 : stratcom_button_led := 0x0001.
Definition STRATCOM_LEDBUTTON_2 : stratcom_button_led := 0x0004.
Definition STRATCOM_LEDBUTTON_3 : stratcom_button_led := 0x0010.
Definition STRATCOM_LEDBUTTON_4 : stratcom_button_led := 0x0040.
Definition STRATCOM_LEDBUTTON_5 : stratcom_button_led := 0x0100.
Definition STRATCOM_LEDBUTTON_6 : stratcom_button_led := 0x0400.
Definition STRATCOM_LEDBUTTON_REC : stratcom_button_led := 0x1000.
Definition STRATCOM_LEDBUTTON_ALL : stratcom_button_led := 0x1555.
Definition STRATCOM_LEDBUTTON_NONE : stratcom_button_led := 0.

(** The selectors that name one physical LED. *)
Definition single_led_buttons : list stratcom_button_led :=
  [ STRATCOM_LEDBUTTON_1; STRATCOM_LEDBUTTON_2; STRATCOM_LEDBUTTON_3;
    STRATCOM_LEDBUTTON_4; STRATCOM_LEDBUTTON_5; STRATCOM_LEDBUTTON_6;
    STRATCOM_LEDBUTTON_REC ].

(** All enumerators of [stratcom_button_led]. *)
Definition led_selectors : list stratcom_button_led :=
  single_led_buttons ++ [ STRATCOM_LEDBUTTON_ALL; STRATCOM_LEDBUTTON_NONE ].

(** ** Reports and the device *)

(** [struct feature_report]: three bytes. *)
Record feature_report : Set := mk_feature_report {
  fr_b0 : Z;
  fr_b1 : Z;
  fr_b2 : Z
}.

(** [struct input_report]: seven bytes. *)
Record input_report : Set := mk_input_report {
  b0 : Z;
  b1 : Z;
  b2 : Z;
  b3 : Z;
  b4 : Z;
  b5 : Z;
  b6 : Z
}.

(** Every field of an input report is a [std::uint8_t]. *)
Definition input_report_ok (r : input_report) : Prop :=
  is_u8 (b0 r) /\ is_u8 (b1 r) /\ is_u8 (b2 r) /\ is_u8 (b3 r) /\
  is_u8 (b4 r) /\ is_u8 (b5 r) /\ is_u8 (b6 r).

(** [stratcom_input_state]: the button word, the slider and the three
    axis words. *)
Record stratcom_input_state : Set := mk_input_state {
  buttons : Z;
  slider : stratcom_slider_state;
  axisX : Z;
  axisY : Z;
  axisZ : Z
}.

(** [struct stratcom_device_] without the transport handle: the calls into
    hidapi are represented by the values they return. *)
Record stratcom_device : Set := mk_device {
  led_button_state : Z;
  blink_on_time : Z;
  blink_off_time : Z;
  led_button_state_has_unflushed_changes : bool;
  input_state : stratcom_input_state
}.

(** [sizeof(feature_report)] and [sizeof(input_report)]. *)
Definition sizeof_feature_report : Z := 3.
Definition sizeof_input_report : Z := 7.

(** ** LED state *)

Definition set_led_button_state (device : stratcom_device) (s : Z) (dirty : bool)
  : stratcom_device :=
  {| led_button_state := s;
     blink_on_time := blink_on_time device;
     blink_off_time := blink_off_time device;
     led_button_state_has_unflushed_changes := dirty;
     input_state := input_state device |}.

Definition stratcom_get_button_led_state (device : stratcom_device)
    (led : stratcom_button_led) : stratcom_led_state :=
  if (led =? STRATCOM_LEDBUTTON_ALL) || (led =? STRATCOM_LEDBUTTON_NONE)
  then STRATCOM_LED_OFF
  else if negb (Z.land (led_button_state device) led =? 0)
  then STRATCOM_LED_ON
  else if negb (Z.land (led_button_state device) (Z.shiftl led 1) =? 0)
  then STRATCOM_LED_BLINK
  else STRATCOM_LED_OFF.

(** The compound assignments [x &= e] and [x |= e] on the 16-bit member:
    the operation is done on [int] and the result converted back. *)
Definition and_assign_u16 (x e : Z) : Z := to_u16 (Z.land x e).
Definition or_assign_u16 (x e : Z) : Z := to_u16 (Z.lor x e).

Definition stratcom_set_button_led_state_without_flushing
    (device : stratcom_device) (led : stratcom_button_led)
    (state : stratcom_led_state) : stratcom_device :=
  let button_mask := to_u16 led in
  let s := led_button_state device in
  let s' :=
    match state with
    | STRATCOM_LED_BLINK =>
        let s1 := and_assign_u16 s (Z.lnot button_mask) in
        or_assign_u16 s1 (Z.shiftl button_mask 1)
    | STRATCOM_LED_ON =>
        let s1 := and_assign_u16 s (Z.lnot (Z.shiftl button_mask 1)) in
        or_assign_u16 s1 button_mask
    | STRATCOM_LED_OFF =>
        let s1 := and_assign_u16 s (Z.lnot button_mask) in
        and_assign_u16 s1 (Z.lnot (Z.shiftl button_mask 1))
    end in
  set_led_button_state device s' true.

(** The feature report that [stratcom_flush_button_led_state] builds. *)
Definition led_feature_report (device : stratcom_device) : feature_report :=
  {| fr_b0 := 0x01;
     fr_b1 := to_u8 (Z.land (led_button_state device) 0xff);
     fr_b2 := to_u8 (Z.land (Z.shiftr (led_button_state device) 8) 0xff) |}.

(** [sent] is what [hid_send_feature_report] returned for the report. *)
Definition stratcom_flush_button_led_state (sent : Z) (device : stratcom_device)
  : stratcom_return * stratcom_device :=
  if negb (sent =? sizeof_feature_report)
  then (STRATCOM_RET_ERROR, device)
  else (STRATCOM_RET_SUCCESS,
        set_led_button_state device (led_button_state device) false).

Definition stratcom_set_button_led_state (sent : Z) (device : stratcom_device)
    (led : stratcom_button_led) (state : stratcom_led_state)
  : stratcom_return * stratcom_device :=
  stratcom_flush_button_led_state sent
    (stratcom_set_button_led_state_without_flushing device led state).

(** [res] and [rep] are what [hid_get_feature_report] returned and what it
    left in the buffer. *)
Definition stratcom_read_button_led_state (res : Z) (rep : feature_report)
    (device : stratcom_device) : stratcom_return * stratcom_device :=
  if negb (res =? sizeof_feature_report)
  then (STRATCOM_RET_ERROR, device)
  else (STRATCOM_RET_SUCCESS,
        set_led_button_state device
          (to_u16 (Z.lor (to_u16 (fr_b1 rep)) (Z.shiftl (to_u16 (fr_b2 rep)) 8)))
          false).

(** A sequence of calls of the setter, first call first. *)
Definition set_led_calls (device : stratcom_device)
    (calls : list (stratcom_button_led * stratcom_led_state)) : stratcom_device :=
  fold_left
    (fun d c => stratcom_set_button_led_state_without_flushing d (fst c) (snd c))
    calls device.

(** The tests of [stratcom_get_button_led_state] on the two bits of a LED. *)
Definition led_on_bit_set (s : Z) (led : stratcom_button_led) : bool :=
  negb (Z.land s led =? 0).
Definition led_blink_bit_set (s : Z) (led : stratcom_button_led) : bool :=
  negb (Z.land s (Z.shiftl led 1) =? 0).

(** A call with selector [sel] addresses the LED [led]. *)
Definition addresses (sel led : stratcom_button_led) : Prop :=
  sel = led \/ sel = STRATCOM_LEDBUTTON_ALL.

(** ** Decoding an input report *)

(** An axis word is a signed 16-bit integer; the raw ten bits are stored,
    and replaced by their two's complement value when bit [0x200] is set. *)
Definition axis_word_of_raw (raw : Z) : Z :=
  let axis := to_i16 raw in
  if negb (Z.land axis 0x200 =? 0)
  then to_i16 (- (Z.lxor axis 0x3FF + 1))
  else axis.

Definition evaluateInputReport (report : input_report)
    (input_state : stratcom_input_state)
  : stratcom_return * stratcom_input_state :=
  if negb (b0 report =? 0x01)
  then (STRATCOM_RET_ERROR, input_state)
  else
    (STRATCOM_RET_SUCCESS,
     {| buttons :=
          to_u16 (Z.lor (Z.shiftl (Z.land (b6 report) 0x0F) 8) (b5 report));
        slider :=
          if Z.land (b6 report) 0x30 =? 0x30 then STRATCOM_SLIDER_1
          else if negb (Z.land (b6 report) 0x20 =? 0) then STRATCOM_SLIDER_2
          else STRATCOM_SLIDER_3;
        axisX :=
          axis_word_of_raw
            (Z.lor (Z.shiftl (Z.land (b2 report) 0x03) 8) (b1 report));
        axisY :=
          axis_word_of_raw
            (Z.lor (Z.shiftl (Z.land (b3 report) 0x0f) 6)
                   (Z.shiftr (Z.land (b2 report) 0xfc) 2));
        axisZ :=
          axis_word_of_raw
            (Z.lor (Z.shiftl (Z.land (b4 report) 0x3f) 4)
                   (Z.shiftr (Z.land (b3 report) 0xf0) 4)) |}).

Definition set_input_state (device : stratcom_device)
    (st : stratcom_input_state) : stratcom_device :=
  {| led_button_state := led_button_state device;
     blink_on_time := blink_on_time device;
     blink_off_time := blink_off_time device;
     led_button_state_has_unflushed_changes :=
       led_button_state_has_unflushed_changes device;
     input_state := st |}.

(** [evaluateInputReport(report, device->input_state)]. *)
Definition evaluate_into_device (report : input_report)
    (device : stratcom_device) : stratcom_return * stratcom_device :=
  let '(r, st) := evaluateInputReport report (input_state device) in
  (r, set_input_state device st).

(** In the three readers, [res] and [report] are what [hid_read] (or
    [hid_read_timeout]) returned and what it left in the buffer. *)
Definition stratcom_read_input (res : Z) (report : input_report)
    (device : stratcom_device) : stratcom_return * stratcom_device :=
  if res =? sizeof_input_report
  then evaluate_into_device report device
  else (STRATCOM_RET_ERROR, device).

Definition stratcom_read_input_with_timeout (res : Z) (report : input_report)
    (device : stratcom_device) : stratcom_return * stratcom_device :=
  if res =? sizeof_input_report
  then evaluate_into_device report device
  else if negb (res =? 0) then (STRATCOM_RET_ERROR, device)
  else (STRATCOM_RET_NO_DATA, device).

Definition stratcom_read_input_non_blocking (res : Z) (report : input_report)
    (device : stratcom_device) : stratcom_return * stratcom_device :=
  if res =? sizeof_input_report
  then evaluate_into_device report device
  else if negb (res =? 0) then (STRATCOM_RET_ERROR, device)
  else (STRATCOM_RET_NO_DATA, device).

(** The decoding rules in the words of the specification: the raw ten bits
    of each axis, the sign rule, and the slider positions by bits of the
    seventh byte. *)
Definition raw_axisX (r : input_report) : Z :=
  Z.lor (Z.shiftl (Z.land (b2 r) 0x03) 8) (b1 r).
Definition raw_axisY (r : input_report) : Z :=
  Z.lor (Z.shiftl (Z.land (b3 r) 0x0F) 6) (Z.shiftr (Z.land (b2 r) 0xFC) 2).
Definition raw_axisZ (r : input_report) : Z :=
  Z.lor (Z.shiftl (Z.land (b4 r) 0x3F) 4) (Z.shiftr (Z.land (b3 r) 0xF0) 4).

Definition spec_sign_rule (raw : Z) : Z :=
  if Z.testbit raw 9 then - (Z.lxor raw 0x3FF + 1) else raw.

Definition spec_slider (byte6 : Z) : stratcom_slider_state :=
  if Z.testbit byte6 4 && Z.testbit byte6 5 then STRATCOM_SLIDER_1
  else if Z.testbit byte6 5 then STRATCOM_SLIDER_2
  else STRATCOM_SLIDER_3.

(** ** The canonical button range *)

Definition stratcom_iterate_buttons_range_begin : stratcom_button :=
  STRATCOM_BUTTON_1.

Definition stratcom_iterate_buttons_range_end : stratcom_button :=
  STRATCOM_BUTTON_NONE.

Definition stratcom_iterate_buttons_range_increment (button : stratcom_button)
  : stratcom_button :=
  if button =? STRATCOM_BUTTON_1 then STRATCOM_BUTTON_2
  else if button =? STRATCOM_BUTTON_2 then STRATCOM_BUTTON_3
  else if button =? STRATCOM_BUTTON_3 then STRATCOM_BUTTON_4
  else if button =? STRATCOM_BUTTON_4 then STRATCOM_BUTTON_5
  else if button =? STRATCOM_BUTTON_5 then STRATCOM_BUTTON_6
  else if button =? STRATCOM_BUTTON_6 then STRATCOM_BUTTON_PLUS
  else if button =? STRATCOM_BUTTON_PLUS then STRATCOM_BUTTON_MINUS
  else if button =? STRATCOM_BUTTON_MINUS then STRATCOM_BUTTON_SHIFT1
  else if button =? STRATCOM_BUTTON_SHIFT1 then STRATCOM_BUTTON_SHIFT2
  else if button =? STRATCOM_BUTTON_SHIFT2 then STRATCOM_BUTTON_SHIFT3
  else if button =? STRATCOM_BUTTON_SHIFT3 then STRATCOM_BUTTON_REC
  else if button =? STRATCOM_BUTTON_REC then STRATCOM_BUTTON_NONE
  else STRATCOM_BUTTON_NONE.

(** The twelve buttons in canonical order. *)
Definition canonical_buttons : list stratcom_button :=
  [ STRATCOM_BUTTON_1; STRATCOM_BUTTON_2; STRATCOM_BUTTON_3;
    STRATCOM_BUTTON_4; STRATCOM_BUTTON_5; STRATCOM_BUTTON_6;
    STRATCOM_BUTTON_PLUS; STRATCOM_BUTTON_MINUS; STRATCOM_BUTTON_SHIFT1;
    STRATCOM_BUTTON_SHIFT2; STRATCOM_BUTTON_SHIFT3; STRATCOM_BUTTON_REC ].

(** The loop [for (b = begin; b != end; b = increment(b))], run for at most
    [fuel] iterations: the buttons visited, and whether the end was reached. *)
Fixpoint iterate_buttons (fuel : nat) (b : stratcom_button)
  : list stratcom_button * bool :=
  if b =? stratcom_iterate_buttons_range_end then ([], true)
  else
    match fuel with
    | O => ([], false)
    | S k =>
        let '(visited, finished) :=
          iterate_buttons k (stratcom_iterate_buttons_range_increment b) in
        (b :: visited, finished)
    end.

(** The number of increments that lead from a button to the end of the
    range. *)
Definition button_rank (b : stratcom_button) : nat :=
  if b =? STRATCOM_BUTTON_NONE then 0
  else if b =? STRATCOM_BUTTON_1 then 12
  else if b =? STRATCOM_BUTTON_2 then 11
  else if b =? STRATCOM_BUTTON_3 then 10
  else if b =? STRATCOM_BUTTON_4 then 9
  else if b =? STRATCOM_BUTTON_5 then 8
  else if b =? STRATCOM_BUTTON_6 then 7
  else if b =? STRATCOM_BUTTON_PLUS then 6
  else if b =? STRATCOM_BUTTON_MINUS then 5
  else if b =? STRATCOM_BUTTON_SHIFT1 then 4
  else if b =? STRATCOM_BUTTON_SHIFT2 then 3
  else if b =? STRATCOM_BUTTON_SHIFT3 then 2
  else 1.

(** ** Input events on the heap *)

Inductive stratcom_input_event_type : Set :=
| STRATCOM_INPUT_EVENT_BUTTON
| STRATCOM_INPUT_EVENT_SLIDER
| STRATCOM_INPUT_EVENT_AXIS.

(** The union [desc] of an event, with the member that was written. *)
Inductive event_desc : Set :=
| desc_button (button : stratcom_button) (status : Z)
| desc_slider (status : stratcom_slider_state)
| desc_axis (axis : stratcom_axis) (status : Z).

(** What an event says, apart from its link. *)
Definition event_payload : Set := stratcom_input_event_type * event_desc.

(** [stratcom_input_event]: a node of a singly linked list; [next] is
    [None] for the null pointer. *)
Record stratcom_input_event : Set := mk_event {
  payload : event_payload;
  next : option positive
}.

(** The free store: the event nodes that are allocated, by address, and the
    number of allocations that [new] still grants before it throws
    [std::bad_alloc]. *)
Record memory : Type := mk_memory {
  heap : gmap positive stratcom_input_event;
  avail : nat
}.

(** How a call ends: with a value, with undefined behaviour (a null or
    dangling pointer is dereferenced), or without an answer within the
    iterations it was given. *)
Inductive outcome (A : Type) : Type :=
| Ok (a : A)
| Undefined
| OutOfFuel.
Arguments Ok {A} a.
Arguments Undefined {A}.
Arguments OutOfFuel {A}.

(** [new stratcom_input_event], followed by the assignments to its fields:
    [None] when [std::bad_alloc] is thrown. *)
Definition new_input_event (ev : stratcom_input_event) (m : memory)
  : option (positive * memory) :=
  match avail m with
  | O => None
  | S n =>
      let a := fresh (dom (heap m)) in
      Some (a, {| heap := <[a := ev]> (heap m); avail := n |})
  end.

(** The state of the [try] block of the event constructor: the local [ret]
    and the free store. *)
Record frame : Type := mk_frame {
  ret : option positive;
  mem : memory
}.

(** A statement of the [try] block ends normally or throws
    [std::bad_alloc]; the state at the throw is what the handler sees. *)
Inductive completion : Type :=
| Normal (f : frame)
| Thrown (f : frame).

Definition and_then (c : completion) (k : frame -> completion) : completion :=
  match c with
  | Normal f => k f
  | Thrown f => Thrown f
  end.

Notation "c >>> k" := (and_then c k) (at level 61, left associativity).

(** [auto ev = new stratcom_input_event; ...; ev->next = ret; ret = ev;] *)
Definition push_event (p : event_payload) (f : frame) : completion :=
  match new_input_event {| payload := p; next := ret f |} (mem f) with
  | None => Thrown f
  | Some (ev, m') => Normal {| ret := Some ev; mem := m' |}
  end.

#[global] Instance slider_state_eq_dec : EqDecision stratcom_slider_state.
Proof. solve_decision. Defined.

Definition slider_step (old_state new_state : stratcom_input_state)
    (f : frame) : completion :=
  if negb (bool_decide (slider old_state = slider new_state))
  then push_event
         (STRATCOM_INPUT_EVENT_SLIDER, desc_slider (slider new_state)) f
  else Normal f.

(** The lambda [evaluate_axis_states], which captures [ret] by reference. *)
Definition evaluate_axis_states (old_val new_val : Z) (axis : stratcom_axis)
    (f : frame) : completion :=
  if negb (old_val =? new_val)
  then push_event (STRATCOM_INPUT_EVENT_AXIS, desc_axis axis new_val) f
  else Normal f.

(** The body of the loop over the buttons. *)
Definition button_step (old_state new_state : stratcom_input_state)
    (b : stratcom_button) (f : frame) : completion :=
  if negb (Z.land (buttons old_state) b =? Z.land (buttons new_state) b)
  then push_event
         (STRATCOM_INPUT_EVENT_BUTTON,
          desc_button b (if Z.land (buttons new_state) b =? 0 then 0 else 1)) f
  else Normal f.

(** The loop [for (b = begin; b != end; b = increment(b))] over the buttons;
    every iteration brings [b] one step nearer to the end of the range. *)
Equations? button_loop (old_state new_state : stratcom_input_state)
    (b : stratcom_button) (f : frame) : completion
    by wf (button_rank b) lt :=
  button_loop old_state new_state b f
    with Z.eq_dec b stratcom_iterate_buttons_range_end := {
    | left _ => Normal f
    | right Hne =>
        match button_step old_state new_state b f with
        | Normal f' =>
            button_loop old_state new_state
              (stratcom_iterate_buttons_range_increment b) f'
        | Thrown f' => Thrown f'
        end }.
Proof.
  unfold stratcom_iterate_buttons_range_increment.
  repeat match goal with
         | |- context [ b =? ?y ] =>
             destruct (Z.eqb_spec b y) as [->|?]; [vm_compute; lia|]
         end.
  unfold button_rank.
  repeat match goal with
         | |- context [ b =? ?y ] =>
             destruct (Z.eqb_spec b y) as [?|?]; [contradiction|]
         end.
  vm_compute. lia.
Qed.

Definition buttons_step (old_state new_state : stratcom_input_state)
    (f : frame) : completion :=
  if negb (buttons old_state =? buttons new_state)
  then button_loop old_state new_state stratcom_iterate_buttons_range_begin f
  else Normal f.

(** The [try] block of [stratcom_create_input_events_from_states]. *)
Definition try_block (old_state new_state : stratcom_input_state)
    (f : frame) : completion :=
  slider_step old_state new_state f
  >>> evaluate_axis_states (axisX old_state) (axisX new_state) STRATCOM_AXIS_X
  >>> evaluate_axis_states (axisY old_state) (axisY new_state) STRATCOM_AXIS_Y
  >>> evaluate_axis_states (axisZ old_state) (axisZ new_state) STRATCOM_AXIS_Z
  >>> buttons_step old_state new_state.

(** A value together with the equation that names it: the termination
    proof of the next function needs what the lookup returned. *)
Definition inspect {A : Type} (a : A) : {b : A | a = b} := exist _ a eq_refl.

(** [stratcom_free_input_events]: every iteration deletes one node of the
    free store, so the loop ends; reading the link of a node that is not
    allocated is undefined. *)
Equations? stratcom_free_input_events
    (h : gmap positive stratcom_input_event) (events : option positive)
  : outcome (gmap positive stratcom_input_event)
    by wf (size h) lt :=
  stratcom_free_input_events h None := Ok h;
  stratcom_free_input_events h (Some to_delete) with inspect (h !! to_delete) := {
    | exist _ None _ => Undefined
    | exist _ (Some ev) Hev =>
        stratcom_free_input_events (delete to_delete h) (next ev) }.
Proof.
  rewrite (map_size_delete to_delete h), Hev.
  assert (size h <> 0%nat) by (intros Hz; apply map_size_empty_inv in Hz; subst h;
                               rewrite lookup_empty in Hev; discriminate).
  lia.
Qed.

(** [stratcom_create_input_events_from_states]: the [try] block, and the
    handler that frees what was built and returns the null pointer. *)
Definition stratcom_create_input_events_from_states
    (old_state new_state : stratcom_input_state) (m : memory)
  : outcome (option positive * memory) :=
  match try_block old_state new_state {| ret := None; mem := m |} with
  | Normal f => Ok (ret f, mem f)
  | Thrown f =>
      match ret f with
      | Some ev =>
          match stratcom_free_input_events (heap (mem f)) (Some ev) with
          | Ok h' => Ok (None, {| heap := h'; avail := avail (mem f) |})
          | Undefined => Undefined
          | OutOfFuel => OutOfFuel
          end
      | None => Ok (None, mem f)
      end
  end.

(** [while(event_it->next) { event_it = event_it->next; }] with at most
    [fuel] iterations: the last node of the list that starts at
    [event_it]. *)
Fixpoint walk_to_tail (fuel : nat) (h : gmap positive stratcom_input_event)
    (event_it : positive) : outcome positive :=
  match h !! event_it with
  | None => Undefined
  | Some ev =>
      match next ev with
      | None => Ok event_it
      | Some nx =>
          match fuel with
          | O => OutOfFuel
          | S k => walk_to_tail k h nx
          end
      end
  end.

(** [stratcom_append_input_events_from_states]; [event_it->next] on the
    null pointer is undefined. *)
Definition stratcom_append_input_events_from_states (fuel : nat)
    (events : option positive) (old_state new_state : stratcom_input_state)
    (m : memory) : outcome (option positive * memory) :=
  match stratcom_create_input_events_from_states old_state new_state m with
  | Ok (new_events, m1) =>
      match events with
      | None => Undefined
      | Some first =>
          match walk_to_tail fuel (heap m1) first with
          | Ok event_it =>
              match heap m1 !! event_it with
              | Some ev =>
                  Ok (new_events,
                      {| heap :=
                           <[event_it := {| payload := payload ev;
                                            next := new_events |}]> (heap m1);
                         avail := avail m1 |})
              | None => Undefined
              end
          | Undefined => Undefined
          | OutOfFuel => OutOfFuel
          end
      end
  | Undefined => Undefined
  | OutOfFuel => OutOfFuel
  end.

(** ** Reading a list off the heap *)

(** The pointer [p] leads through the cells [cells] (address and payload of
    each node, first node first) to the null pointer. *)
Fixpoint list_seg (h : gmap positive stratcom_input_event)
    (p : option positive) (cells : list (positive * event_payload)) : Prop :=
  match cells with
  | [] => p = None
  | c :: rest =>
      p = Some (fst c) /\
      exists nx, h !! fst c = Some {| payload := snd c; next := nx |} /\
                 list_seg h nx rest
  end.

(** The events of the list at [p], first node first, read with at most
    [fuel] steps. *)
Fixpoint read_events (fuel : nat) (h : gmap positive stratcom_input_event)
    (p : option positive) : option (list event_payload) :=
  match p with
  | None => Some []
  | Some a =>
      match fuel, h !! a with
      | S k, Some ev => option_map (cons (payload ev)) (read_events k h (next ev))
      | _, _ => None
      end
  end.

(** ** The event list in the words of the specification *)

Definition slider_events (old_state new_state : stratcom_input_state)
  : list event_payload :=
  if bool_decide (slider old_state = slider new_state) then []
  else [ (STRATCOM_INPUT_EVENT_SLIDER, desc_slider (slider new_state)) ].

Definition axis_events (old_val new_val : Z) (axis : stratcom_axis)
  : list event_payload :=
  if old_val =? new_val then []
  else [ (STRATCOM_INPUT_EVENT_AXIS, desc_axis axis new_val) ].

(** The pressed-state of button [b] differs between the snapshots. *)
Definition button_changed (old_state new_state : stratcom_input_state)
    (b : stratcom_button) : bool :=
  negb (Z.land (buttons old_state) b =? Z.land (buttons new_state) b).

Definition button_event (new_state : stratcom_input_state)
    (b : stratcom_button) : event_payload :=
  (STRATCOM_INPUT_EVENT_BUTTON,
   desc_button b (if Z.land (buttons new_state) b =? 0 then 0 else 1)).

Definition button_events (old_state new_state : stratcom_input_state)
    (bs : list stratcom_button) : list event_payload :=
  map (button_event new_state)
    (List.filter (button_changed old_state new_state) bs).

(** The events in the order slider, axisX, axisY, axisZ, buttons in
    canonical order. *)
Definition events_in_claimed_order (old_state new_state : stratcom_input_state)
  : list event_payload :=
  slider_events old_state new_state
  ++ axis_events (axisX old_state) (axisX new_state) STRATCOM_AXIS_X
  ++ axis_events (axisY old_state) (axisY new_state) STRATCOM_AXIS_Y
  ++ axis_events (axisZ old_state) (axisZ new_state) STRATCOM_AXIS_Z
  ++ button_events old_state new_state canonical_buttons.

(** The events in the order of the list that the code returns: the event
    made last comes first. *)
Definition events_newest_first (old_state new_state : stratcom_input_state)
  : list event_payload :=
  button_events old_state new_state (rev canonical_buttons)
  ++ axis_events (axisZ old_state) (axisZ new_state) STRATCOM_AXIS_Z
  ++ axis_events (axisY old_state) (axisY new_state) STRATCOM_AXIS_Y
  ++ axis_events (axisX old_state) (axisX new_state) STRATCOM_AXIS_X
  ++ slider_events old_state new_state.

(** Sample snapshots: between them the slider and two axes change. *)
Definition sample_old_state : stratcom_input_state :=
  {| buttons := 0; slider := STRATCOM_SLIDER_3;
     axisX := 0; axisY := 0; axisZ := 0 |}.

Definition sample_new_state : stratcom_input_state :=
  {| buttons := 0; slider := STRATCOM_SLIDER_1;
     axisX := 5; axisY := 0; axisZ := -7 |}.

(** A free store without nodes, in which [new] succeeds [n] times. *)
Definition empty_memory (n : nat) : memory := {| heap := ∅; avail := n |}.

(** Allocating one event after the other, each in front of the list built
    so far: what the [try] block does with the events it decides to make. *)
Fixpoint push_all (evs : list event_payload) (f : frame) : completion :=
  match evs with
  | [] => Normal f
  | ev :: rest => push_event ev f >>> push_all rest
  end.

(** The heap [h] is the heap [h0] with the cells [cells], newest first,
    allocated on top of it and linked into a list that starts at [p]. *)
Inductive built (h0 : gmap positive stratcom_input_event)
  : gmap positive stratcom_input_event -> option positive ->
    list (positive * event_payload) -> Prop :=
| built_nil : built h0 h0 None []
| built_cons h p cells a ev :
    built h0 h p cells ->
    h !! a = None ->
    built h0 (<[a := {| payload := ev; next := p |}]> h) (Some a)
      ((a, ev) :: cells).

(** The call returns a list whose events, first node first, are [evs]. *)
Definition returns_events (old_state new_state : stratcom_input_state)
    (m : memory) (evs : list event_payload) : Prop :=
  exists p m' cells,
    stratcom_create_input_events_from_states old_state new_state m
      = Ok (p, m')
    /\ list_seg (heap m') p cells
    /\ map snd cells = evs.

(** The events read off the list that the constructor returns, in the
    order of the list. *)
Definition events_returned (old_state new_state : stratcom_input_state)
    (m : memory) : option (list event_payload) :=
  match stratcom_create_input_events_from_states old_state new_state m with
  | Ok (p, m') => read_events (size (heap m')) (heap m') p
  | _ => None
  end.

(** Counting the events of a kind in a list of events. *)
Definition is_slider_event (ev : event_payload) : bool :=
  match ev with
  | (STRATCOM_INPUT_EVENT_SLIDER, desc_slider _) => true
  | _ => false
  end.

Definition is_axis_event (axis : stratcom_axis) (ev : event_payload) : bool :=
  match ev, axis with
  | (STRATCOM_INPUT_EVENT_AXIS, desc_axis STRATCOM_AXIS_X _), STRATCOM_AXIS_X
  | (STRATCOM_INPUT_EVENT_AXIS, desc_axis STRATCOM_AXIS_Y _), STRATCOM_AXIS_Y
  | (STRATCOM_INPUT_EVENT_AXIS, desc_axis STRATCOM_AXIS_Z _), STRATCOM_AXIS_Z =>
      true
  | _, _ => false
  end.

Definition is_button_event (b : stratcom_button) (ev : event_payload) : bool :=
  match ev with
  | (STRATCOM_INPUT_EVENT_BUTTON, desc_button b' _) => b' =? b
  | _ => false
  end.

Definition count_events (kind : event_payload -> bool)
    (evs : list event_payload) : nat :=
  length (List.filter kind evs).

(** ** Sample values *)

Definition sample_device : stratcom_device :=
  {| led_button_state := 0x0006;
     blink_on_time := 10;
     blink_off_time := 20;
     led_button_state_has_unflushed_changes := false;
     input_state :=
       {| buttons := 0x0805; slider := STRATCOM_SLIDER_2;
          axisX := -3; axisY := 511; axisZ := 0 |} |}.

(** The bit positions of the "on" bits of the LED word. *)
Definition on_bit_positions : list Z := [0; 2; 4; 6; 8; 10; 12].

(** The two bits at position [j] of a LED word are not both set. *)
Definition not_both (m j : Z) : Prop :=
  Z.testbit m j && Z.testbit m (j + 1) = false.

(** A heap that holds a list of two events, at the addresses 10 and 11. *)
Definition sample_cells : list (positive * event_payload) :=
  [ (10%positive, (STRATCOM_INPUT_EVENT_SLIDER, desc_slider STRATCOM_SLIDER_2));
    (11%positive, (STRATCOM_INPUT_EVENT_AXIS, desc_axis STRATCOM_AXIS_X 3)) ].

Definition sample_list_memory : memory :=
  {| heap :=
       {[ 10%positive :=
            {| payload := (STRATCOM_INPUT_EVENT_SLIDER,
                           desc_slider STRATCOM_SLIDER_2);
               next := Some 11%positive |};
          11%positive :=
            {| payload := (STRATCOM_INPUT_EVENT_AXIS,
                           desc_axis STRATCOM_AXIS_X 3);
               next := None |} ]};
     avail := 16 |}.

(** ** The remaining accessors of the device *)

(** [stratcom_led_state_has_unflushed_changes]: the flag as an [int]. *)
Definition stratcom_led_state_has_unflushed_changes
    (device : stratcom_device) : Z :=
  if led_button_state_has_unflushed_changes device then 1 else 0.

(** [stratcom_get_led_blink_interval]: the two values written through the
    out-pointers. *)
Definition stratcom_get_led_blink_interval (device : stratcom_device)
  : Z * Z :=
  (blink_on_time device, blink_off_time device).

(** The feature report that [stratcom_set_led_blink_interval] builds from
    its two [uint8_t] arguments. *)
Definition led_blink_report (on_time off_time : Z) : feature_report :=
  {| fr_b0 := 0x02; fr_b1 := on_time; fr_b2 := off_time |}.

(** [stratcom_set_led_blink_interval]: [sent] is what
    [hid_send_feature_report] returned for the report; the function writes
    no member of the device. *)
Definition stratcom_set_led_blink_interval (sent : Z)
    (device : stratcom_device) (on_time off_time : Z)
  : stratcom_return * stratcom_device :=
  if negb (sent =? sizeof_feature_report)
  then (STRATCOM_RET_ERROR, device)
  else (STRATCOM_RET_SUCCESS, device).

Definition set_blink_state (device : stratcom_device) (on_time off_time : Z)
  : stratcom_device :=
  {| led_button_state := led_button_state device;
     blink_on_time := on_time;
     blink_off_time := off_time;
     led_button_state_has_unflushed_changes :=
       led_button_state_has_unflushed_changes device;
     input_state := input_state device |}.

(** [stratcom_read_led_blink_intervals]: [res] and [rep] are what
    [hid_get_feature_report] returned and what it left in the buffer. *)
Definition stratcom_read_led_blink_intervals (res : Z) (rep : feature_report)
    (device : stratcom_device) : stratcom_return * stratcom_device :=
  if negb (res =? sizeof_feature_report)
  then (STRATCOM_RET_ERROR, device)
  else (STRATCOM_RET_SUCCESS, set_blink_state device (fr_b1 rep) (fr_b2 rep)).

Definition stratcom_get_led_for_button (button : stratcom_button)
  : stratcom_button_led :=
  if button =? STRATCOM_BUTTON_1 then STRATCOM_LEDBUTTON_1
  else if button =? STRATCOM_BUTTON_2 then STRATCOM_LEDBUTTON_2
  else if button =? STRATCOM_BUTTON_3 then STRATCOM_LEDBUTTON_3
  else if button =? STRATCOM_BUTTON_4 then STRATCOM_LEDBUTTON_4
  else if button =? STRATCOM_BUTTON_5 then STRATCOM_LEDBUTTON_5
  else if button =? STRATCOM_BUTTON_6 then STRATCOM_LEDBUTTON_6
  else if button =? STRATCOM_BUTTON_REC then STRATCOM_LEDBUTTON_REC
  else STRATCOM_LEDBUTTON_NONE.

Definition stratcom_get_input_state (device : stratcom_device)
  : stratcom_input_state :=
  input_state device.

(** [stratcom_is_button_pressed]: the masked button word, as an [int]. *)
Definition stratcom_is_button_pressed (device : stratcom_device)
    (button : stratcom_button) : Z :=
  Z.land (buttons (input_state device)) button.

Definition stratcom_get_axis_value (device : stratcom_device)
    (axis : stratcom_axis) : Z :=
  match axis with
  | STRATCOM_AXIS_X => axisX (input_state device)
  | STRATCOM_AXIS_Y => axisY (input_state device)
  | STRATCOM_AXIS_Z => axisZ (input_state device)
  end.

Definition stratcom_get_slider_state (device : stratcom_device)
  : stratcom_slider_state :=
  slider (input_state device).

(** The buttons that have a LED, in the order of the cases of
    [stratcom_get_led_for_button]. *)
Definition buttons_with_led : list stratcom_button :=
  [ STRATCOM_BUTTON_1; STRATCOM_BUTTON_2; STRATCOM_BUTTON_3;
    STRATCOM_BUTTON_4; STRATCOM_BUTTON_5; STRATCOM_BUTTON_6;
    STRATCOM_BUTTON_REC ].

(** The addresses of the nodes of a list. *)
Definition addresses_of (cells : list (positive * event_payload))
  : list positive :=
  map fst cells.

(** What an event of the diff of two snapshots may say: the new value of a
    field that differs between them. *)
Definition event_reports_change (old_state new_state : stratcom_input_state)
    (ev : event_payload) : Prop :=
  match ev with
  | (STRATCOM_INPUT_EVENT_SLIDER, desc_slider s) =>
      s = slider new_state /\ slider old_state <> slider new_state
  | (STRATCOM_INPUT_EVENT_AXIS, desc_axis STRATCOM_AXIS_X v) =>
      v = axisX new_state /\ axisX old_state <> axisX new_state
  | (STRATCOM_INPUT_EVENT_AXIS, desc_axis STRATCOM_AXIS_Y v) =>
      v = axisY new_state /\ axisY old_state <> axisY new_state
  | (STRATCOM_INPUT_EVENT_AXIS, desc_axis STRATCOM_AXIS_Z v) =>
      v = axisZ new_state /\ axisZ old_state <> axisZ new_state
  | (STRATCOM_INPUT_EVENT_BUTTON, desc_button b s) =>
      In b canonical_buttons
      /\ Z.land (buttons old_state) b <> Z.land (buttons new_state) b
      /\ s = (if Z.land (buttons new_state) b =? 0 then 0 else 1)
  | _ => False
  end.

(** * Theorems *)

(** ** Bits of fixed-width words *)

Lemma testbit_to_u16 (x i : Z) :
  Z.testbit (to_u16 x) i = (i <? 16) && Z.testbit x i.
Proof. unfold to_u16. apply Z.testbit_mod_pow2. lia. Qed.

Lemma to_u16_small (x : Z) : is_u16 x -> to_u16 x = x.
Proof. unfold is_u16, to_u16. intros H. apply Z.mod_small. exact H. Qed.

Lemma to_u8_small (x : Z) : is_u8 x -> to_u8 x = x.
Proof. unfold is_u8, to_u8. intros H. apply Z.mod_small. exact H. Qed.

Lemma to_i16_small (x : Z) : - 2 ^ 15 <= x < 2 ^ 15 -> to_i16 x = x.
Proof. unfold to_i16. intros H. rewrite Z.mod_small; lia. Qed.

(** A non-negative number below [2 ^ k] has no bit at or above [k], and
    conversely. *)
Lemma below_pow2_bits (k x : Z) :
  0 <= k -> 0 <= x ->
  (x < 2 ^ k <-> forall i, k <= i -> Z.testbit x i = false).
Proof. intros Hk Hx. apply Z.bounded_iff_bits_nonneg; assumption. Qed.

Lemma lor_below_pow2 (k x y : Z) :
  0 <= k -> 0 <= x < 2 ^ k -> 0 <= y < 2 ^ k -> 0 <= Z.lor x y < 2 ^ k.
Proof.
  intros Hk [Hx0 Hx] [Hy0 Hy].
  assert (H0 : 0 <= Z.lor x y) by (apply Z.lor_nonneg; split; assumption).
  split; [exact H0|].
  apply below_pow2_bits; [assumption..|].
  intros i Hi. rewrite Z.lor_spec.
  rewrite (proj1 (below_pow2_bits k x Hk Hx0) Hx i Hi).
  rewrite (proj1 (below_pow2_bits k y Hk Hy0) Hy i Hi).
  reflexivity.
Qed.

Lemma lxor_below_pow2 (k x y : Z) :
  0 <= k -> 0 <= x < 2 ^ k -> 0 <= y < 2 ^ k -> 0 <= Z.lxor x y < 2 ^ k.
Proof.
  intros Hk [Hx0 Hx] [Hy0 Hy].
  assert (H0 : 0 <= Z.lxor x y) by (apply Z.lxor_nonneg; lia).
  split; [exact H0|].
  apply below_pow2_bits; [assumption..|].
  intros i Hi. rewrite Z.lxor_spec.
  rewrite (proj1 (below_pow2_bits k x Hk Hx0) Hx i Hi).
  rewrite (proj1 (below_pow2_bits k y Hk Hy0) Hy i Hi).
  reflexivity.
Qed.

Lemma land_below_pow2 (k x y : Z) :
  0 <= k -> 0 <= y < 2 ^ k -> 0 <= Z.land x y < 2 ^ k.
Proof.
  intros Hk [Hy0 Hy].
  assert (H0 : 0 <= Z.land x y) by (apply Z.land_nonneg; right; assumption).
  split; [exact H0|].
  apply below_pow2_bits; [assumption..|].
  intros i Hi. rewrite Z.land_spec.
  rewrite (proj1 (below_pow2_bits k y Hk Hy0) Hy i Hi).
  apply andb_false_r.
Qed.

(** Masking with a single bit tests that bit. *)
Lemma land_pow2_eqb_0 (x k : Z) :
  0 <= k -> (Z.land x (2 ^ k) =? 0) = negb (Z.testbit x k).
Proof.
  intros Hk. destruct (Z.testbit x k) eqn:Hb; simpl.
  - apply Z.eqb_neq. intros H0.
    assert (Hk' : Z.testbit (Z.land x (2 ^ k)) k = true)
      by (rewrite Z.land_spec, Hb, Z.pow2_bits_true; auto).
    rewrite H0, Z.bits_0 in Hk'. discriminate.
  - apply Z.eqb_eq. apply Z.bits_inj'. intros n Hn.
    rewrite Z.land_spec, Z.bits_0, Z.pow2_bits_eqb by assumption.
    destruct (Z.eqb_spec k n) as [->|]; [rewrite Hb|]; auto using andb_false_r.
Qed.

(** ** C2: a report with a wrong report id *)

Lemma set_input_state_same (device : stratcom_device) :
  set_input_state device (input_state device) = device.
Proof. destruct device. reflexivity. Qed.

Lemma evaluateInputReport_bad_id (report : input_report)
    (st : stratcom_input_state) :
  b0 report <> 0x01 ->
  evaluateInputReport report st = (STRATCOM_RET_ERROR, st).
Proof.
  intros Hb. unfold evaluateInputReport.
  destruct (Z.eqb_spec (b0 report) 1) as [E|_]; [contradiction|reflexivity].
Qed.

Lemma evaluate_into_device_bad_id (report : input_report)
    (device : stratcom_device) :
  b0 report <> 0x01 ->
  evaluate_into_device report device = (STRATCOM_RET_ERROR, device).
Proof.
  intros Hb. unfold evaluate_into_device.
  rewrite evaluateInputReport_bad_id by assumption.
  rewrite set_input_state_same. reflexivity.
Qed.

(** C2: when byte 0 of a seven-byte input report is not [0x01],
    [evaluateInputReport] returns the error result and hands the snapshot
    back as it was; so every reader that received seven bytes returns the
    error and leaves the device, and with it every field of the cached
    snapshot, unchanged. *)
Theorem C2_wrong_report_id_is_error_and_keeps_snapshot
    (report : input_report) (device : stratcom_device) :
  b0 report <> 0x01 ->
  evaluateInputReport report (input_state device)
    = (STRATCOM_RET_ERROR, input_state device)
  /\ stratcom_read_input sizeof_input_report report device
       = (STRATCOM_RET_ERROR, device)
  /\ stratcom_read_input_with_timeout sizeof_input_report report device
       = (STRATCOM_RET_ERROR, device)
  /\ stratcom_read_input_non_blocking sizeof_input_report report device
       = (STRATCOM_RET_ERROR, device).
Proof.
  intros Hb.
  split; [apply evaluateInputReport_bad_id; assumption|].
  unfold stratcom_read_input, stratcom_read_input_with_timeout,
    stratcom_read_input_non_blocking.
  rewrite Z.eqb_refl.
  repeat split; apply evaluate_into_device_bad_id; assumption.
Qed.

Lemma C2_witness :
  let report := mk_input_report 0x02 0xFF 0x01 0 0 0x04 0x30 in
  evaluateInputReport report (input_state sample_device)
    = (STRATCOM_RET_ERROR, input_state sample_device)
  /\ stratcom_read_input sizeof_input_report report sample_device
       = (STRATCOM_RET_ERROR, sample_device)
  /\ stratcom_read_input_with_timeout sizeof_input_report report sample_device
       = (STRATCOM_RET_ERROR, sample_device)
  /\ stratcom_read_input_non_blocking sizeof_input_report report sample_device
       = (STRATCOM_RET_ERROR, sample_device).
Proof.
  apply (C2_wrong_report_id_is_error_and_keeps_snapshot
           (mk_input_report 0x02 0xFF 0x01 0 0 0x04 0x30) sample_device).
  simpl. lia.
Defined.

(** ** C3: the LED feature report *)

Lemma led_report_bytes (device : stratcom_device) :
  is_u16 (led_button_state device) ->
  fr_b1 (led_feature_report device) = led_button_state device mod 2 ^ 8
  /\ fr_b2 (led_feature_report device) = led_button_state device / 2 ^ 8.
Proof.
  unfold is_u16. intros Hm. unfold led_feature_report; simpl.
  change 255 with (Z.ones 8).
  rewrite !Z.land_ones by lia. rewrite Z.shiftr_div_pow2 by lia.
  unfold to_u8. rewrite !Z.mod_mod by lia.
  split; [reflexivity|].
  apply Z.mod_small.
  split; [apply Z.div_pos; lia|apply Z.div_lt_upper_bound; lia].
Qed.

Lemma lor_shiftl_8_join (m : Z) :
  0 <= m -> Z.lor (m mod 2 ^ 8) (Z.shiftl (m / 2 ^ 8) 8) = m.
Proof.
  intros Hm. apply Z.bits_inj'. intros i Hi.
  rewrite Z.lor_spec, Z.testbit_mod_pow2, Z.shiftl_spec by lia.
  destruct (Z.ltb_spec i 8) as [Hlt|Hge]; simpl.
  - rewrite (Z.testbit_neg_r _ (i - 8)) by lia. apply orb_false_r.
  - rewrite Z.div_pow2_bits by lia. f_equal. lia.
Qed.

(** C3: for a 16-bit LED word [m], the report built by
    [stratcom_flush_button_led_state] has byte 0 equal to [0x01], byte 1 the
    low eight bits and byte 2 the high eight bits of [m], and
    [stratcom_read_button_led_state], given these three bytes, stores [m]
    again. *)
Theorem C3_led_report_round_trip (device cache : stratcom_device) :
  is_u16 (led_button_state device) ->
  let rep := led_feature_report device in
  fr_b0 rep = 0x01
  /\ fr_b1 rep = led_button_state device mod 2 ^ 8
  /\ fr_b2 rep = led_button_state device / 2 ^ 8
  /\ stratcom_read_button_led_state sizeof_feature_report rep cache
       = (STRATCOM_RET_SUCCESS,
          set_led_button_state cache (led_button_state device) false).
Proof.
  intros Hm rep.
  destruct (led_report_bytes device Hm) as [H1 H2]. fold rep in H1, H2.
  split; [reflexivity|]. split; [exact H1|]. split; [exact H2|].
  unfold stratcom_read_button_led_state.
  rewrite Z.eqb_refl. cbn [negb].
  rewrite H1, H2. unfold is_u16 in Hm.
  assert (Hlo : is_u16 (led_button_state device mod 2 ^ 8)).
  { unfold is_u16.
    pose proof (Z.mod_pos_bound (led_button_state device) (2 ^ 8)). lia. }
  assert (Hhi : is_u16 (led_button_state device / 2 ^ 8)).
  { unfold is_u16. split; [apply Z.div_pos; lia|].
    apply Z.div_lt_upper_bound; lia. }
  rewrite (to_u16_small _ Hlo), (to_u16_small _ Hhi).
  rewrite lor_shiftl_8_join by lia.
  rewrite to_u16_small by exact Hm. reflexivity.
Qed.

Lemma C3_witness :
  let rep := led_feature_report sample_device in
  fr_b0 rep = 0x01
  /\ fr_b1 rep = led_button_state sample_device mod 2 ^ 8
  /\ fr_b2 rep = led_button_state sample_device / 2 ^ 8
  /\ stratcom_read_button_led_state sizeof_feature_report rep sample_device
       = (STRATCOM_RET_SUCCESS,
          set_led_button_state sample_device
            (led_button_state sample_device) false).
Proof.
  apply (C3_led_report_round_trip sample_device sample_device).
  unfold is_u16. simpl. lia.
Defined.

(** ** C5 and C6: axes and slider of a well-formed report *)

Lemma land_0x200_eqb_0 (x : Z) :
  (Z.land x 0x200 =? 0) = negb (Z.testbit x 9).
Proof. change 0x200 with (2 ^ 9). apply land_pow2_eqb_0. lia. Qed.

(** On ten raw bits the 16-bit arithmetic of the decoder never wraps, and
    the decoder follows the sign rule of the specification. *)
Lemma axis_word_of_raw_sign_rule (raw : Z) :
  0 <= raw < 2 ^ 10 -> axis_word_of_raw raw = spec_sign_rule raw.
Proof.
  intros Hr. unfold axis_word_of_raw, spec_sign_rule.
  rewrite to_i16_small by lia.
  rewrite land_0x200_eqb_0, negb_involutive.
  destruct (Z.testbit raw 9); [|reflexivity].
  apply to_i16_small.
  pose proof (lxor_below_pow2 10 raw 0x3FF) as Hx.
  assert (0 <= Z.lxor raw 0x3FF < 2 ^ 10) by (apply Hx; lia).
  lia.
Qed.

Lemma raw_axisX_range (r : input_report) :
  input_report_ok r -> 0 <= raw_axisX r < 2 ^ 10.
Proof.
  unfold input_report_ok, is_u8, raw_axisX.
  intros (_ & H1 & H2 & _).
  apply lor_below_pow2; [lia| |lia].
  pose proof (land_below_pow2 2 (b2 r) 0x03 ltac:(lia) ltac:(lia)) as Hl.
  rewrite Z.shiftl_mul_pow2 by lia. lia.
Qed.

Lemma raw_axisY_range (r : input_report) :
  input_report_ok r -> 0 <= raw_axisY r < 2 ^ 10.
Proof.
  unfold input_report_ok, is_u8, raw_axisY.
  intros (_ & H1 & H2 & H3 & _).
  pose proof (land_below_pow2 4 (b3 r) 0x0F ltac:(lia) ltac:(lia)) as Hh.
  pose proof (land_below_pow2 8 (b2 r) 0xFC ltac:(lia) ltac:(lia)) as Hl.
  apply lor_below_pow2; [lia| |].
  - rewrite Z.shiftl_mul_pow2 by lia. lia.
  - rewrite Z.shiftr_div_pow2 by lia.
    split; [apply Z.div_pos; lia|apply Z.div_lt_upper_bound; lia].
Qed.

Lemma raw_axisZ_range (r : input_report) :
  input_report_ok r -> 0 <= raw_axisZ r < 2 ^ 10.
Proof.
  unfold input_report_ok, is_u8, raw_axisZ.
  intros (_ & H1 & H2 & H3 & H4 & _).
  pose proof (land_below_pow2 6 (b4 r) 0x3F ltac:(lia) ltac:(lia)) as Hh.
  pose proof (land_below_pow2 8 (b3 r) 0xF0 ltac:(lia) ltac:(lia)) as Hl.
  apply lor_below_pow2; [lia| |].
  - rewrite Z.shiftl_mul_pow2 by lia. lia.
  - rewrite Z.shiftr_div_pow2 by lia.
    split; [apply Z.div_pos; lia|apply Z.div_lt_upper_bound; lia].
Qed.

Lemma evaluateInputReport_good_id (report : input_report)
    (st : stratcom_input_state) :
  b0 report = 0x01 ->
  fst (evaluateInputReport report st) = STRATCOM_RET_SUCCESS.
Proof.
  intros Hb. unfold evaluateInputReport. rewrite Hb. reflexivity.
Qed.

(** C5: for a seven-byte report with byte 0 equal to [0x01], decoding
    succeeds and each axis is the sign rule of the specification applied to
    its ten raw bits; so raw [0x1FF] is 511 and raw [0x200] is -512. *)
Theorem C5_axes_are_sign_extended_raw_bits
    (report : input_report) (st : stratcom_input_state) :
  input_report_ok report ->
  b0 report = 0x01 ->
  let decoded := snd (evaluateInputReport report st) in
  fst (evaluateInputReport report st) = STRATCOM_RET_SUCCESS
  /\ axisX decoded = spec_sign_rule (raw_axisX report)
  /\ axisY decoded = spec_sign_rule (raw_axisY report)
  /\ axisZ decoded = spec_sign_rule (raw_axisZ report)
  /\ (raw_axisX report = 0x1FF -> axisX decoded = 511)
  /\ (raw_axisX report = 0x200 -> axisX decoded = -512).
Proof.
  intros Hok Hb decoded.
  assert (HX : axisX decoded = spec_sign_rule (raw_axisX report)).
  { subst decoded. unfold evaluateInputReport. rewrite Hb. simpl.
    apply axis_word_of_raw_sign_rule, raw_axisX_range, Hok. }
  split; [apply evaluateInputReport_good_id; exact Hb|].
  split; [exact HX|].
  split.
  { subst decoded. unfold evaluateInputReport. rewrite Hb. simpl.
    apply axis_word_of_raw_sign_rule, raw_axisY_range, Hok. }
  split.
  { subst decoded. unfold evaluateInputReport. rewrite Hb. simpl.
    apply axis_word_of_raw_sign_rule, raw_axisZ_range, Hok. }
  split; intros Hraw; rewrite HX, Hraw; reflexivity.
Qed.

Lemma C5_witness :
  let report := mk_input_report 0x01 0x00 0x02 0x00 0x00 0x00 0x00 in
  let decoded := snd (evaluateInputReport report (input_state sample_device)) in
  fst (evaluateInputReport report (input_state sample_device))
    = STRATCOM_RET_SUCCESS
  /\ axisX decoded = spec_sign_rule (raw_axisX report)
  /\ axisY decoded = spec_sign_rule (raw_axisY report)
  /\ axisZ decoded = spec_sign_rule (raw_axisZ report)
  /\ (raw_axisX report = 0x1FF -> axisX decoded = 511)
  /\ (raw_axisX report = 0x200 -> axisX decoded = -512).
Proof.
  apply (C5_axes_are_sign_extended_raw_bits
           (mk_input_report 0x01 0x00 0x02 0x00 0x00 0x00 0x00)
           (input_state sample_device)).
  - unfold input_report_ok, is_u8. simpl. lia.
  - reflexivity.
Defined.

Lemma land_pow2_cases (x k : Z) :
  0 <= k -> Z.land x (2 ^ k) = if Z.testbit x k then 2 ^ k else 0.
Proof.
  intros Hk. apply Z.bits_inj'. intros n Hn.
  rewrite Z.land_spec, Z.pow2_bits_eqb by assumption.
  destruct (Z.eqb_spec k n) as [->|Hne].
  - destruct (Z.testbit x n); simpl.
    + symmetry. apply Z.pow2_bits_true. assumption.
    + symmetry. apply Z.bits_0.
  - rewrite andb_false_r.
    destruct (Z.testbit x k).
    + symmetry. apply Z.pow2_bits_false. assumption.
    + symmetry. apply Z.bits_0.
Qed.

Lemma land_0x30_eqb (x : Z) :
  (Z.land x 0x30 =? 0x30) = Z.testbit x 4 && Z.testbit x 5.
Proof.
  change 0x30 with (Z.lor (2 ^ 4) (2 ^ 5)) at 1.
  rewrite Z.land_lor_distr_r, !land_pow2_cases by lia.
  destruct (Z.testbit x 4), (Z.testbit x 5); reflexivity.
Qed.

Lemma land_0x20_eqb_0 (x : Z) :
  (Z.land x 0x20 =? 0) = negb (Z.testbit x 5).
Proof. change 0x20 with (2 ^ 5). apply land_pow2_eqb_0. lia. Qed.

(** C6: for a report with byte 0 equal to [0x01], the decoded slider is
    Slider1 when bits 4 and 5 of byte 6 are both set, else Slider2 when bit
    5 is set, else Slider3; the test of both bits comes first and looks at
    no other bit of byte 6. *)
Theorem C6_slider_from_byte6
    (report : input_report) (st : stratcom_input_state) :
  b0 report = 0x01 ->
  let decoded := snd (evaluateInputReport report st) in
  slider decoded = spec_slider (b6 report)
  /\ (Z.land (b6 report) 0x30 = 0x30 -> slider decoded = STRATCOM_SLIDER_1)
  /\ (Z.land (b6 report) 0x30 <> 0x30 -> Z.testbit (b6 report) 5 = true ->
      slider decoded = STRATCOM_SLIDER_2)
  /\ (Z.testbit (b6 report) 5 = false -> slider decoded = STRATCOM_SLIDER_3).
Proof.
  intros Hb decoded.
  assert (HS : slider decoded = spec_slider (b6 report)).
  { subst decoded. unfold evaluateInputReport, spec_slider.
    rewrite Hb. simpl.
    rewrite land_0x30_eqb, land_0x20_eqb_0, negb_involutive. reflexivity. }
  split; [exact HS|].
  rewrite HS. unfold spec_slider.
  split; [|split].
  - intros H. apply Z.eqb_eq in H. rewrite land_0x30_eqb in H.
    rewrite H. reflexivity.
  - intros H H5. apply Z.eqb_neq in H. rewrite land_0x30_eqb in H.
    rewrite H, H5. reflexivity.
  - intros H5. rewrite H5, andb_false_r. reflexivity.
Qed.

Lemma C6_witness :
  let report := mk_input_report 0x01 0 0 0 0 0 0x3A in
  let decoded := snd (evaluateInputReport report (input_state sample_device)) in
  slider decoded = spec_slider (b6 report)
  /\ (Z.land (b6 report) 0x30 = 0x30 -> slider decoded = STRATCOM_SLIDER_1)
  /\ (Z.land (b6 report) 0x30 <> 0x30 -> Z.testbit (b6 report) 5 = true ->
      slider decoded = STRATCOM_SLIDER_2)
  /\ (Z.testbit (b6 report) 5 = false -> slider decoded = STRATCOM_SLIDER_3).
Proof.
  apply (C6_slider_from_byte6 (mk_input_report 0x01 0 0 0 0 0 0x3A)
           (input_state sample_device)).
  reflexivity.
Defined.

(** ** C10: the button range *)

Lemma button_rank_increment (b : stratcom_button) :
  b <> stratcom_iterate_buttons_range_end ->
  (button_rank (stratcom_iterate_buttons_range_increment b) < button_rank b)%nat.
Proof.
  intros Hb.
  unfold stratcom_iterate_buttons_range_increment.
  repeat match goal with
         | |- context [ b =? ?y ] =>
             destruct (Z.eqb_spec b y) as [->|?]; [vm_compute; lia|]
         end.
  unfold button_rank.
  repeat match goal with
         | |- context [ b =? ?y ] =>
             destruct (Z.eqb_spec b y) as [?|?]; [contradiction|]
         end.
  vm_compute. lia.
Qed.

Lemma increment_outside (b : stratcom_button) :
  ~ In b canonical_buttons ->
  stratcom_iterate_buttons_range_increment b = STRATCOM_BUTTON_NONE.
Proof.
  intros Hb. unfold stratcom_iterate_buttons_range_increment.
  repeat match goal with
         | |- context [ ?x =? ?y ] =>
             destruct (Z.eqb_spec x y);
             [exfalso; apply Hb; subst b; simpl; tauto|]
         end.
  reflexivity.
Qed.

(** The loop over the range ends from every start, within as many steps as
    the rank of the start. *)
Lemma iterate_buttons_finishes (fuel : nat) (b : stratcom_button) :
  (button_rank b <= fuel)%nat -> snd (iterate_buttons fuel b) = true.
Proof.
  revert b. induction fuel as [|k IH]; intros b Hr; simpl.
  - destruct (Z.eqb_spec b stratcom_iterate_buttons_range_end) as [|Hne];
      [reflexivity|].
    pose proof (button_rank_increment b Hne). lia.
  - destruct (Z.eqb_spec b stratcom_iterate_buttons_range_end) as [|Hne];
      [reflexivity|].
    pose proof (button_rank_increment b Hne) as Hlt.
    specialize (IH (stratcom_iterate_buttons_range_increment b) ltac:(lia)).
    destruct (iterate_buttons k (stratcom_iterate_buttons_range_increment b)).
    exact IH.
Qed.

(** C10: the increment is a total function; from the beginning of the range
    it visits the twelve buttons in canonical order and is at the end of the
    range after twelve steps and not before; it sends every value outside
    the enumeration to NONE, and from every value the loop over the range
    ends within thirteen steps. *)
Theorem C10_button_range_is_finite :
  iterate_buttons 12 stratcom_iterate_buttons_range_begin
    = (canonical_buttons, true)
  /\ length canonical_buttons = 12%nat
  /\ Nat.iter 12 stratcom_iterate_buttons_range_increment
       stratcom_iterate_buttons_range_begin
     = stratcom_iterate_buttons_range_end
  /\ (forall b, ~ In b canonical_buttons ->
        stratcom_iterate_buttons_range_increment b = STRATCOM_BUTTON_NONE)
  /\ (forall b, b <> stratcom_iterate_buttons_range_end ->
        (button_rank (stratcom_iterate_buttons_range_increment b)
         < button_rank b)%nat)
  /\ (forall b, snd (iterate_buttons 13 b) = true).
Proof.
  split; [reflexivity|]. split; [reflexivity|]. split; [reflexivity|].
  split; [exact increment_outside|]. split; [exact button_rank_increment|].
  intros b. apply iterate_buttons_finishes.
  unfold button_rank.
  repeat match goal with
         | |- context [ ?x =? ?y ] => destruct (x =? y); try lia
         end.
Qed.

(** ** C4: the two bits of a LED *)

Lemma single_led_pow2 (led : stratcom_button_led) :
  In led single_led_buttons ->
  exists j, In j on_bit_positions /\ led = 2 ^ j.
Proof.
  unfold single_led_buttons, on_bit_positions. simpl.
  intros H.
  repeat (destruct H as [<-|H];
          [ first [ exists 0; split; [tauto|reflexivity]
                  | exists 2; split; [tauto|reflexivity]
                  | exists 4; split; [tauto|reflexivity]
                  | exists 6; split; [tauto|reflexivity]
                  | exists 8; split; [tauto|reflexivity]
                  | exists 10; split; [tauto|reflexivity]
                  | exists 12; split; [tauto|reflexivity] ] | ]).
  contradiction.
Qed.

Lemma on_bit_position_facts (j : Z) :
  In j on_bit_positions -> 0 <= j < 13 /\ Z.odd j = false.
Proof.
  unfold on_bit_positions. simpl. intros H.
  repeat (destruct H as [<-|H]; [split; [lia|reflexivity]|]).
  contradiction.
Qed.

Lemma pow2_odd_bit (j i : Z) :
  0 <= j -> Z.odd j = false -> Z.odd i = true -> Z.testbit (2 ^ j) i = false.
Proof.
  intros Hj Hej Hoi. apply Z.pow2_bits_false.
  intros ->. rewrite Hej in Hoi. discriminate.
Qed.

(** A selector has bits at even positions only. *)
Lemma selector_odd_bits (sel : stratcom_button_led) (i : Z) :
  In sel led_selectors -> Z.odd i = true -> Z.testbit sel i = false.
Proof.
  unfold led_selectors. rewrite in_app_iff. intros [Hs|Hs] Hi.
  - destruct (single_led_pow2 sel Hs) as (j & Hj & ->).
    destruct (on_bit_position_facts j Hj) as [Hr Hp].
    apply pow2_odd_bit; [lia|assumption..].
  - simpl in Hs. destruct Hs as [<-|[<-|[]]].
    + change STRATCOM_LEDBUTTON_ALL
        with (Z.lor (2 ^ 0) (Z.lor (2 ^ 2) (Z.lor (2 ^ 4) (Z.lor (2 ^ 6)
               (Z.lor (2 ^ 8) (Z.lor (2 ^ 10) (2 ^ 12))))))).
      rewrite !Z.lor_spec.
      rewrite !pow2_odd_bit by (try lia; auto). reflexivity.
    + apply Z.bits_0.
Qed.

Lemma selector_is_u16 (sel : stratcom_button_led) :
  In sel led_selectors -> to_u16 sel = sel.
Proof.
  unfold led_selectors, single_led_buttons. simpl. intros H.
  repeat (destruct H as [<-|H]; [reflexivity|]).
  contradiction.
Qed.

Lemma addressed_bit (sel led : stratcom_button_led) (j : Z) :
  In j on_bit_positions -> led = 2 ^ j -> addresses sel led ->
  Z.testbit sel j = true.
Proof.
  intros Hj -> [->| ->].
  - apply Z.pow2_bits_true.
    destruct (on_bit_position_facts j Hj). lia.
  - unfold on_bit_positions in Hj. simpl in Hj.
    repeat (destruct Hj as [<-|Hj]; [reflexivity|]).
    contradiction.
Qed.

(** What one call of the setter does to the two bits at an "on" position
    [j], where [c] says whether the selector has its bit at [j]. *)
Lemma setter_bits (device : stratcom_device) (sel : stratcom_button_led)
    (state : stratcom_led_state) (j : Z) :
  In sel led_selectors -> In j on_bit_positions ->
  let m := led_button_state device in
  let r := led_button_state
             (stratcom_set_button_led_state_without_flushing device sel state) in
  let c := Z.testbit sel j in
  match state with
  | STRATCOM_LED_ON =>
      Z.testbit r j = Z.testbit m j || c
      /\ Z.testbit r (j + 1) = Z.testbit m (j + 1) && negb c
  | STRATCOM_LED_BLINK =>
      Z.testbit r j = Z.testbit m j && negb c
      /\ Z.testbit r (j + 1) = Z.testbit m (j + 1) || c
  | STRATCOM_LED_OFF =>
      Z.testbit r j = Z.testbit m j && negb c
      /\ Z.testbit r (j + 1) = Z.testbit m (j + 1) && negb c
  end.
Proof.
  intros Hsel Hj m r c.
  destruct (on_bit_position_facts j Hj) as [Hr Hp].
  assert (Hlow : Z.testbit sel (j - 1) = false).
  { apply selector_odd_bits; [assumption|].
    replace (j - 1) with (Z.pred j) by lia.
    rewrite Z.odd_pred, <- Z.negb_odd, Hp. reflexivity. }
  assert (Hhigh : Z.testbit sel (j + 1) = false).
  { apply selector_odd_bits; [assumption|].
    replace (j + 1) with (Z.succ j) by lia.
    rewrite Z.odd_succ, <- Z.negb_odd, Hp. reflexivity. }
  assert (Hj16 : (j <? 16) = true) by (apply Z.ltb_lt; lia).
  assert (Hj16' : (j + 1 <? 16) = true) by (apply Z.ltb_lt; lia).
  subst r.
  unfold stratcom_set_button_led_state_without_flushing, set_led_button_state,
    and_assign_u16, or_assign_u16.
  rewrite (selector_is_u16 sel Hsel).
  subst c m.
  destruct state; simpl led_button_state;
    repeat first [ rewrite testbit_to_u16 | rewrite Z.lor_spec
                 | rewrite Z.land_spec | rewrite Z.lnot_spec by lia
                 | rewrite Z.shiftl_spec by lia ];
    replace (j + 1 - 1) with j by lia;
    rewrite ?Hlow, ?Hhigh, ?Hj16, ?Hj16';
    destruct (Z.testbit (led_button_state device) j),
             (Z.testbit (led_button_state device) (j + 1)),
             (Z.testbit sel j); split; reflexivity.
Qed.

Lemma setter_keeps_not_both (device : stratcom_device)
    (sel : stratcom_button_led) (state : stratcom_led_state) (j : Z) :
  In sel led_selectors -> In j on_bit_positions ->
  not_both (led_button_state device) j ->
  not_both (led_button_state
              (stratcom_set_button_led_state_without_flushing device sel state)) j.
Proof.
  intros Hsel Hj. unfold not_both.
  pose proof (setter_bits device sel state j Hsel Hj) as H. cbv zeta in H.
  destruct state; destruct H as [-> ->];
    destruct (Z.testbit (led_button_state device) j),
             (Z.testbit (led_button_state device) (j + 1)),
             (Z.testbit sel j); simpl; congruence.
Qed.

Lemma setter_makes_not_both (device : stratcom_device)
    (sel : stratcom_button_led) (state : stratcom_led_state) (j : Z) :
  In sel led_selectors -> In j on_bit_positions ->
  Z.testbit sel j = true ->
  not_both (led_button_state
              (stratcom_set_button_led_state_without_flushing device sel state)) j.
Proof.
  intros Hsel Hj Hc. unfold not_both.
  pose proof (setter_bits device sel state j Hsel Hj) as H. cbv zeta in H.
  rewrite Hc in H.
  destruct state; destruct H as [-> ->];
    destruct (Z.testbit (led_button_state device) j),
             (Z.testbit (led_button_state device) (j + 1)); reflexivity.
Qed.

Lemma calls_keep_not_both
    (calls : list (stratcom_button_led * stratcom_led_state))
    (device : stratcom_device) (j : Z) :
  Forall (fun c => In (fst c) led_selectors) calls ->
  In j on_bit_positions ->
  not_both (led_button_state device) j ->
  not_both (led_button_state (set_led_calls device calls)) j.
Proof.
  intros Hall Hj. revert device.
  induction Hall as [|c calls Hc Hall IH]; intros device Hnb; simpl.
  - exact Hnb.
  - apply IH. apply setter_keeps_not_both; assumption.
Qed.

Lemma calls_make_not_both
    (calls : list (stratcom_button_led * stratcom_led_state))
    (device : stratcom_device) (j : Z) :
  Forall (fun c => In (fst c) led_selectors) calls ->
  In j on_bit_positions ->
  Exists (fun c => Z.testbit (fst c) j = true) calls ->
  not_both (led_button_state (set_led_calls device calls)) j.
Proof.
  intros Hall Hj Hex. revert device Hall.
  induction Hex as [c calls Hc|c calls Hex IH]; intros device Hall;
    inversion Hall as [|? ? Hsel Hrest]; subst; simpl.
  - apply calls_keep_not_both; [assumption..|].
    apply setter_makes_not_both; assumption.
  - apply IH. assumption.
Qed.

Lemma led_on_bit_set_pow2 (m j : Z) :
  0 <= j -> led_on_bit_set m (2 ^ j) = Z.testbit m j.
Proof.
  intros Hj. unfold led_on_bit_set.
  rewrite land_pow2_eqb_0 by assumption. apply negb_involutive.
Qed.

Lemma led_blink_bit_set_pow2 (m j : Z) :
  0 <= j -> led_blink_bit_set m (2 ^ j) = Z.testbit m (j + 1).
Proof.
  intros Hj. unfold led_blink_bit_set.
  rewrite Z.shiftl_mul_pow2 by lia.
  replace (2 ^ j * 2 ^ 1) with (2 ^ (j + 1))
    by (rewrite Z.pow_add_r by lia; reflexivity).
  rewrite land_pow2_eqb_0 by lia. apply negb_involutive.
Qed.

(** Setting OFF clears, in the LED word, every bit of the selector and of
    the selector shifted to the blink positions. *)
Lemma setter_off_clears (device : stratcom_device) (sel : stratcom_button_led) :
  In sel led_selectors ->
  let r := led_button_state
             (stratcom_set_button_led_state_without_flushing
                device sel STRATCOM_LED_OFF) in
  Z.land r sel = 0 /\ Z.land r (Z.shiftl sel 1) = 0.
Proof.
  intros Hsel r. subst r.
  unfold stratcom_set_button_led_state_without_flushing, set_led_button_state,
    and_assign_u16. simpl led_button_state.
  rewrite (selector_is_u16 sel Hsel).
  split; apply Z.bits_inj'; intros i Hi;
    rewrite Z.bits_0;
    repeat first [ rewrite testbit_to_u16 | rewrite Z.land_spec
                 | rewrite Z.lnot_spec by lia ].
  - destruct (Z.testbit sel i); simpl; rewrite ?andb_false_r; reflexivity.
  - destruct (Z.testbit (Z.shiftl sel 1) i); simpl;
      rewrite ?andb_false_r; reflexivity.
Qed.

Lemma single_led_is_selector (led : stratcom_button_led) :
  In led single_led_buttons -> In led led_selectors.
Proof. intros H. unfold led_selectors. apply in_or_app. left. exact H. Qed.

(** C4: from every LED word and for every LED [led], after one or more
    calls of [stratcom_set_button_led_state_without_flushing] on [led] the
    word does not have both the on-bit and the blink-bit of [led]; ON
    followed by BLINK leaves the blink-bit alone, and OFF clears both bits.
    The same holds after calls with any selectors of the enumeration of
    which at least one addressed [led] (the selector itself or ALL), and
    OFF clears the bits of every LED of its selector. *)
Theorem C4_on_and_blink_never_both
    (device : stratcom_device) (led : stratcom_button_led)
    (states : list stratcom_led_state) :
  In led single_led_buttons ->
  states <> [] ->
  let after :=
    led_button_state (set_led_calls device (map (pair led) states)) in
  let on_blink :=
    led_button_state
      (set_led_calls device
         [ (led, STRATCOM_LED_ON); (led, STRATCOM_LED_BLINK) ]) in
  let off :=
    led_button_state
      (stratcom_set_button_led_state_without_flushing
         device led STRATCOM_LED_OFF) in
  led_on_bit_set after led && led_blink_bit_set after led = false
  /\ (led_on_bit_set on_blink led = false
      /\ led_blink_bit_set on_blink led = true)
  /\ (led_on_bit_set off led = false /\ led_blink_bit_set off led = false)
  /\ (forall calls,
        Forall (fun c => In (fst c) led_selectors) calls ->
        Exists (fun c => addresses (fst c) led) calls ->
        let r := led_button_state (set_led_calls device calls) in
        led_on_bit_set r led && led_blink_bit_set r led = false)
  /\ (forall sel, In sel led_selectors ->
        let r := led_button_state
                   (stratcom_set_button_led_state_without_flushing
                      device sel STRATCOM_LED_OFF) in
        Z.land r sel = 0 /\ Z.land r (Z.shiftl sel 1) = 0).
Proof.
  intros Hled Hstates after on_blink off.
  destruct (single_led_pow2 led Hled) as (j & Hj & Hpow).
  destruct (on_bit_position_facts j Hj) as [Hr _].
  pose proof (single_led_is_selector led Hled) as Hsel.
  assert (Hself : Z.testbit led j = true).
  { apply (addressed_bit led led j Hj Hpow). left. reflexivity. }
  assert (Hgen : forall calls,
             Forall (fun c => In (fst c) led_selectors) calls ->
             Exists (fun c => addresses (fst c) led) calls ->
             let r := led_button_state (set_led_calls device calls) in
             led_on_bit_set r led && led_blink_bit_set r led = false).
  { intros calls Hall Hex r. subst r. rewrite Hpow at 1 2.
    rewrite led_on_bit_set_pow2, led_blink_bit_set_pow2 by lia.
    apply calls_make_not_both; [assumption..|].
    clear Hall.
    induction Hex as [c l Hc|c l _ IH]; [constructor 1|constructor 2].
    + apply (addressed_bit (fst c) led j Hj Hpow Hc).
    + exact IH. }
  split; [|split; [|split; [|split]]].
  - apply Hgen.
    + clear after Hstates. induction states as [|st states IH]; simpl;
        constructor; [exact Hsel|exact IH].
    + destruct states as [|st states]; [contradiction|].
      constructor 1. left. reflexivity.
  - subst on_blink. unfold set_led_calls. simpl fold_left.
    set (d1 := stratcom_set_button_led_state_without_flushing
                 device led STRATCOM_LED_ON).
    pose proof (setter_bits d1 led STRATCOM_LED_BLINK j Hsel Hj) as H2.
    cbv zeta in H2. rewrite Hself in H2. destruct H2 as [H2 H2'].
    rewrite Hpow at 2 4.
    rewrite led_on_bit_set_pow2, led_blink_bit_set_pow2 by lia.
    rewrite H2, H2'. rewrite andb_false_r, orb_true_r. split; reflexivity.
  - subst off.
    pose proof (setter_bits device led STRATCOM_LED_OFF j Hsel Hj) as H2.
    cbv zeta in H2. rewrite Hself in H2. destruct H2 as [H2 H2'].
    rewrite Hpow at 2 4.
    rewrite led_on_bit_set_pow2, led_blink_bit_set_pow2 by lia.
    rewrite H2, H2'. rewrite !andb_false_r. split; reflexivity.
  - exact Hgen.
  - intros sel Hs. apply setter_off_clears. exact Hs.
Qed.

Lemma C4_witness :
  let device := set_led_button_state sample_device 0x0003 false in
  let led := STRATCOM_LEDBUTTON_1 in
  let states := [ STRATCOM_LED_ON; STRATCOM_LED_BLINK ] in
  let after :=
    led_button_state (set_led_calls device (map (pair led) states)) in
  let on_blink :=
    led_button_state
      (set_led_calls device
         [ (led, STRATCOM_LED_ON); (led, STRATCOM_LED_BLINK) ]) in
  let off :=
    led_button_state
      (stratcom_set_button_led_state_without_flushing
         device led STRATCOM_LED_OFF) in
  led_on_bit_set after led && led_blink_bit_set after led = false
  /\ (led_on_bit_set on_blink led = false
      /\ led_blink_bit_set on_blink led = true)
  /\ (led_on_bit_set off led = false /\ led_blink_bit_set off led = false)
  /\ (forall calls,
        Forall (fun c => In (fst c) led_selectors) calls ->
        Exists (fun c => addresses (fst c) led) calls ->
        let r := led_button_state (set_led_calls device calls) in
        led_on_bit_set r led && led_blink_bit_set r led = false)
  /\ (forall sel, In sel led_selectors ->
        let r := led_button_state
                   (stratcom_set_button_led_state_without_flushing
                      device sel STRATCOM_LED_OFF) in
        Z.land r sel = 0 /\ Z.land r (Z.shiftl sel 1) = 0).
Proof.
  apply (C4_on_and_blink_never_both
           (set_led_button_state sample_device 0x0003 false)
           STRATCOM_LEDBUTTON_1
           [ STRATCOM_LED_ON; STRATCOM_LED_BLINK ]).
  - simpl. tauto.
  - discriminate.
Defined.

(** ** The event constructor as a sequence of allocations *)

Lemma button_loop_step (old_state new_state : stratcom_input_state)
    (b : stratcom_button) (f : frame) :
  button_loop old_state new_state b f =
  if b =? stratcom_iterate_buttons_range_end then Normal f
  else button_step old_state new_state b f
       >>> button_loop old_state new_state
             (stratcom_iterate_buttons_range_increment b).
Proof.
  simp button_loop.
  destruct (Z.eq_dec b stratcom_iterate_buttons_range_end) as [E|E]; simpl.
  - apply Z.eqb_eq in E. rewrite E. reflexivity.
  - apply Z.eqb_neq in E. rewrite E. reflexivity.
Qed.

Lemma free_unfold_allocated (h : gmap positive stratcom_input_event)
    (a : positive) (ev : stratcom_input_event) :
  h !! a = Some ev ->
  stratcom_free_input_events h (Some a)
  = stratcom_free_input_events (delete a h) (next ev).
Proof.
  intros Hev. simp stratcom_free_input_events.
  destruct (inspect (h !! a)) as [[ev'|] Heq]; simpl.
  - rewrite Hev in Heq. injection Heq as ->. reflexivity.
  - rewrite Hev in Heq. discriminate.
Qed.

Lemma free_unfold_dangling (h : gmap positive stratcom_input_event)
    (a : positive) :
  h !! a = None -> stratcom_free_input_events h (Some a) = Undefined.
Proof.
  intros Hev. simp stratcom_free_input_events.
  destruct (inspect (h !! a)) as [[ev'|] Heq]; simpl.
  - rewrite Hev in Heq. discriminate.
  - reflexivity.
Qed.

Lemma fresh_address_free (h : gmap positive stratcom_input_event) :
  h !! fresh (dom h) = None.
Proof. apply not_elem_of_dom. apply is_fresh. Qed.

Lemma push_event_granted (ev : event_payload) (f : frame) (n : nat) :
  avail (mem f) = S n ->
  exists a,
    heap (mem f) !! a = None
    /\ push_event ev f
       = Normal {| ret := Some a;
                   mem := {| heap := <[a := {| payload := ev; next := ret f |}]>
                                       (heap (mem f));
                             avail := n |} |}.
Proof.
  intros Hn. exists (fresh (dom (heap (mem f)))).
  split; [apply fresh_address_free|].
  unfold push_event, new_input_event. rewrite Hn. reflexivity.
Qed.

Lemma push_event_refused (ev : event_payload) (f : frame) :
  avail (mem f) = O -> push_event ev f = Thrown f.
Proof.
  intros Hn. unfold push_event, new_input_event. rewrite Hn. reflexivity.
Qed.

Lemma push_all_app (xs ys : list event_payload) (f : frame) :
  push_all (xs ++ ys) f = push_all xs f >>> push_all ys.
Proof.
  revert f. induction xs as [|x xs IH]; intros f; simpl; [reflexivity|].
  destruct (push_event x f) as [f'|f']; simpl; [apply IH|reflexivity].
Qed.

Lemma slider_step_push_all (old_state new_state : stratcom_input_state)
    (f : frame) :
  slider_step old_state new_state f
  = push_all (slider_events old_state new_state) f.
Proof.
  unfold slider_step, slider_events.
  destruct (bool_decide (slider old_state = slider new_state)); simpl;
    [reflexivity|].
  destruct (push_event _ f); reflexivity.
Qed.

Lemma evaluate_axis_states_push_all (old_val new_val : Z)
    (axis : stratcom_axis) (f : frame) :
  evaluate_axis_states old_val new_val axis f
  = push_all (axis_events old_val new_val axis) f.
Proof.
  unfold evaluate_axis_states, axis_events.
  destruct (old_val =? new_val); simpl; [reflexivity|].
  destruct (push_event _ f); reflexivity.
Qed.

Lemma button_step_push_all (old_state new_state : stratcom_input_state)
    (b : stratcom_button) (f : frame) :
  button_step old_state new_state b f
  = push_all (button_events old_state new_state [b]) f.
Proof.
  unfold button_step, button_events, button_changed. simpl.
  destruct (Z.land (buttons old_state) b =? Z.land (buttons new_state) b);
    simpl; [reflexivity|].
  unfold button_event. destruct (push_event _ f); reflexivity.
Qed.

Lemma button_events_cons (old_state new_state : stratcom_input_state)
    (b : stratcom_button) (bs : list stratcom_button) :
  button_events old_state new_state (b :: bs)
  = button_events old_state new_state [b]
    ++ button_events old_state new_state bs.
Proof.
  unfold button_events. simpl.
  destruct (button_changed old_state new_state b); reflexivity.
Qed.

(** The loop over the buttons pushes the events of the buttons it visits. *)
Lemma button_loop_push_all (old_state new_state : stratcom_input_state)
    (fuel : nat) (b : stratcom_button) (f : frame) :
  snd (iterate_buttons fuel b) = true ->
  button_loop old_state new_state b f
  = push_all (button_events old_state new_state
                (fst (iterate_buttons fuel b))) f.
Proof.
  revert b f. induction fuel as [|k IH]; intros b f; simpl;
    rewrite button_loop_step;
    destruct (b =? stratcom_iterate_buttons_range_end); simpl;
    try reflexivity; try discriminate.
  specialize (IH (stratcom_iterate_buttons_range_increment b)).
  destruct (iterate_buttons k (stratcom_iterate_buttons_range_increment b))
    as [visited finished].
  simpl in *. intros Hfin.
  rewrite button_events_cons, push_all_app, button_step_push_all.
  destruct (push_all (button_events old_state new_state [b]) f) as [f'|f'];
    simpl; [apply IH; exact Hfin|reflexivity].
Qed.

Lemma unchanged_buttons_no_events (old_state new_state : stratcom_input_state)
    (bs : list stratcom_button) :
  buttons old_state = buttons new_state ->
  button_events old_state new_state bs = [].
Proof.
  intros Heq. unfold button_events.
  induction bs as [|b bs IH]; simpl; [reflexivity|].
  unfold button_changed at 1. rewrite Heq, Z.eqb_refl. simpl. exact IH.
Qed.

Lemma buttons_step_push_all (old_state new_state : stratcom_input_state)
    (f : frame) :
  buttons_step old_state new_state f
  = push_all (button_events old_state new_state canonical_buttons) f.
Proof.
  unfold buttons_step.
  destruct (Z.eqb_spec (buttons old_state) (buttons new_state)) as [E|E];
    simpl.
  - rewrite unchanged_buttons_no_events by exact E. reflexivity.
  - apply (button_loop_push_all old_state new_state 12
             stratcom_iterate_buttons_range_begin f).
    reflexivity.
Qed.

(** The [try] block allocates the events of the specification, in its
    order, each in front of the ones before. *)
Lemma try_block_push_all (old_state new_state : stratcom_input_state)
    (f : frame) :
  try_block old_state new_state f
  = push_all (events_in_claimed_order old_state new_state) f.
Proof.
  unfold try_block, events_in_claimed_order.
  rewrite push_all_app, slider_step_push_all.
  destruct (push_all (slider_events old_state new_state) f) as [f1|f1];
    simpl; [|reflexivity].
  rewrite push_all_app, evaluate_axis_states_push_all.
  destruct (push_all (axis_events (axisX old_state) (axisX new_state)
                        STRATCOM_AXIS_X) f1) as [f2|f2];
    simpl; [|reflexivity].
  rewrite push_all_app, evaluate_axis_states_push_all.
  destruct (push_all (axis_events (axisY old_state) (axisY new_state)
                        STRATCOM_AXIS_Y) f2) as [f3|f3];
    simpl; [|reflexivity].
  rewrite push_all_app, evaluate_axis_states_push_all.
  destruct (push_all (axis_events (axisZ old_state) (axisZ new_state)
                        STRATCOM_AXIS_Z) f3) as [f4|f4];
    simpl; [|reflexivity].
  apply buttons_step_push_all.
Qed.

(** ** Lists built on top of a heap *)

Lemma list_seg_insert_fresh (h : gmap positive stratcom_input_event)
    (p : option positive) (cells : list (positive * event_payload))
    (a : positive) (v : stratcom_input_event) :
  list_seg h p cells -> h !! a = None -> list_seg (<[a := v]> h) p cells.
Proof.
  intros Hseg Ha. revert p Hseg.
  induction cells as [|c cells IH]; intros p Hseg; simpl in *; [exact Hseg|].
  destruct Hseg as (Hp & nx & Hc & Hrest).
  split; [exact Hp|]. exists nx. split; [|apply IH; exact Hrest].
  rewrite lookup_insert_ne; [exact Hc|].
  intros ->. rewrite Ha in Hc. discriminate.
Qed.

Lemma list_seg_functional (h : gmap positive stratcom_input_event)
    (p : option positive) (cells1 cells2 : list (positive * event_payload)) :
  list_seg h p cells1 -> list_seg h p cells2 -> cells1 = cells2.
Proof.
  revert p cells2.
  induction cells1 as [|[a1 x1] cells1 IH]; intros p [|[a2 x2] cells2];
    simpl; intros H1 H2.
  - reflexivity.
  - destruct H2 as [H2 _]. rewrite H1 in H2. discriminate.
  - destruct H1 as [H1 _]. rewrite H2 in H1. discriminate.
  - destruct H1 as (Hp1 & nx1 & Hc1 & Hr1).
    destruct H2 as (Hp2 & nx2 & Hc2 & Hr2).
    rewrite Hp1 in Hp2. injection Hp2 as <-.
    rewrite Hc1 in Hc2. injection Hc2 as <- <-.
    f_equal. apply (IH nx1); assumption.
Qed.

Lemma built_list_seg (h0 h : gmap positive stratcom_input_event)
    (p : option positive) (cells : list (positive * event_payload)) :
  built h0 h p cells -> list_seg h p cells.
Proof.
  induction 1 as [|h p cells a ev Hb IH Ha]; simpl; [reflexivity|].
  split; [reflexivity|]. exists p. split.
  - apply lookup_insert_eq.
  - apply list_seg_insert_fresh; assumption.
Qed.

(** Freeing the list gives back the heap it was built on. *)
Lemma built_free (h0 h : gmap positive stratcom_input_event)
    (p : option positive) (cells : list (positive * event_payload)) :
  built h0 h p cells -> stratcom_free_input_events h p = Ok h0.
Proof.
  induction 1 as [|h p cells a ev Hb IH Ha].
  - simp stratcom_free_input_events. reflexivity.
  - rewrite (free_unfold_allocated _ a {| payload := ev; next := p |})
      by apply lookup_insert_eq.
    simpl. rewrite delete_insert_id by exact Ha. exact IH.
Qed.

Lemma built_extends (h0 h : gmap positive stratcom_input_event)
    (p : option positive) (cells : list (positive * event_payload)) :
  built h0 h p cells ->
  forall a v, h0 !! a = Some v -> h !! a = Some v.
Proof.
  induction 1 as [|h p cells a ev Hb IH Ha]; intros a' v Hv; [exact Hv|].
  specialize (IH a' v Hv).
  rewrite lookup_insert_ne; [exact IH|].
  intros ->. rewrite Ha in IH. discriminate.
Qed.

Lemma built_cells_fresh (h0 h : gmap positive stratcom_input_event)
    (p : option positive) (cells : list (positive * event_payload)) :
  built h0 h p cells ->
  forall c, In c cells -> h0 !! fst c = None.
Proof.
  induction 1 as [|h p cells a ev Hb IH Ha]; intros c Hc; [destruct Hc|].
  destruct Hc as [<-|Hc]; [|apply IH; exact Hc].
  simpl. destruct (h0 !! a) as [v|] eqn:Hv; [|reflexivity].
  rewrite (built_extends h0 h p cells Hb a v Hv) in Ha. discriminate.
Qed.

Lemma built_null (h0 h : gmap positive stratcom_input_event)
    (cells : list (positive * event_payload)) :
  built h0 h None cells -> h = h0 /\ cells = [].
Proof. intros H. inversion H. split; reflexivity. Qed.

(** What a run of allocations leaves behind, when every allocation is
    granted and when one is refused. *)
Lemma push_all_built (h0 : gmap positive stratcom_input_event)
    (evs : list event_payload) (f : frame)
    (cells : list (positive * event_payload)) :
  built h0 (heap (mem f)) (ret f) cells ->
  match push_all evs f with
  | Normal f' =>
      (length evs <= avail (mem f))%nat
      /\ avail (mem f') = (avail (mem f) - length evs)%nat
      /\ exists cells',
           built h0 (heap (mem f')) (ret f') (cells' ++ cells)
           /\ map snd cells' = rev evs
  | Thrown f' =>
      (avail (mem f) < length evs)%nat
      /\ avail (mem f') = O
      /\ exists cells',
           built h0 (heap (mem f')) (ret f') (cells' ++ cells)
           /\ map snd cells' = rev (firstn (avail (mem f)) evs)
  end.
Proof.
  revert f cells. induction evs as [|ev evs IH]; intros f cells Hb; simpl.
  - split; [lia|]. split; [lia|]. exists []. split; [exact Hb|reflexivity].
  - destruct (avail (mem f)) as [|n] eqn:Hn.
    + rewrite push_event_refused by exact Hn. simpl.
      split; [lia|]. split; [exact Hn|]. exists [].
      split; [exact Hb|reflexivity].
    + destruct (push_event_granted ev f n Hn) as (a & Ha & ->). simpl.
      set (f1 := {| ret := Some a; mem := _ |}).
      specialize (IH f1 ((a, ev) :: cells)).
      assert (Hb1 : built h0 (heap (mem f1)) (ret f1) ((a, ev) :: cells))
        by (apply built_cons; assumption).
      specialize (IH Hb1).
      destruct (push_all evs f1) as [f'|f'].
      * destruct IH as (Hlen & Hav & cells' & Hb' & Hmap). simpl in Hlen, Hav.
        split; [lia|]. split; [lia|].
        exists (cells' ++ [(a, ev)]). split.
        -- rewrite <- app_assoc. exact Hb'.
        -- rewrite map_app, Hmap. reflexivity.
      * destruct IH as (Hlen & Hav & cells' & Hb' & Hmap). simpl in Hlen, Hmap.
        split; [lia|]. split; [exact Hav|].
        exists (cells' ++ [(a, ev)]). split.
        -- rewrite <- app_assoc. exact Hb'.
        -- rewrite map_app, Hmap. reflexivity.
Qed.

(** When every allocation is granted, the constructor returns the events
    of the specification's list in reverse: the last one made comes first. *)
Lemma create_granted (old_state new_state : stratcom_input_state) (m : memory) :
  (length (events_in_claimed_order old_state new_state) <= avail m)%nat ->
  exists p m' cells,
    stratcom_create_input_events_from_states old_state new_state m
      = Ok (p, m')
    /\ built (heap m) (heap m') p cells
    /\ map snd cells = rev (events_in_claimed_order old_state new_state)
    /\ avail m'
       = (avail m - length (events_in_claimed_order old_state new_state))%nat.
Proof.
  intros Hlen. unfold stratcom_create_input_events_from_states.
  rewrite try_block_push_all.
  pose proof (push_all_built (heap m)
                (events_in_claimed_order old_state new_state)
                {| ret := None; mem := m |} [] (built_nil (heap m))) as H.
  destruct (push_all _ _) as [f'|f']; simpl in H.
  - destruct H as (_ & Hav & cells' & Hb & Hmap).
    exists (ret f'), (mem f'), cells'.
    rewrite app_nil_r in Hb. repeat split; assumption.
  - destruct H as (Hlt & _). lia.
Qed.

(** When an allocation is refused, the constructor returns the null
    pointer and the heap is the one it started from. *)
Lemma create_refused (old_state new_state : stratcom_input_state) (m : memory) :
  (avail m < length (events_in_claimed_order old_state new_state))%nat ->
  stratcom_create_input_events_from_states old_state new_state m
  = Ok (None, {| heap := heap m; avail := O |}).
Proof.
  intros Hlt. unfold stratcom_create_input_events_from_states.
  rewrite try_block_push_all.
  pose proof (push_all_built (heap m)
                (events_in_claimed_order old_state new_state)
                {| ret := None; mem := m |} [] (built_nil (heap m))) as H.
  destruct (push_all _ _) as [f'|f']; simpl in H.
  - destruct H as (Hle & _). lia.
  - destruct H as (_ & Hav & cells' & Hb & _). rewrite app_nil_r in Hb.
    destruct (ret f') as [ev|] eqn:Hret.
    + rewrite (built_free _ _ _ _ Hb), Hav. reflexivity.
    + destruct (built_null _ _ _ Hb) as [Hh _].
      destruct f' as [r' [h' n']]. simpl in *. subst. reflexivity.
Qed.

Lemma create_total (old_state new_state : stratcom_input_state) (m : memory) :
  exists p m' cells,
    stratcom_create_input_events_from_states old_state new_state m
      = Ok (p, m')
    /\ built (heap m) (heap m') p cells.
Proof.
  destruct (Nat.le_gt_cases
              (length (events_in_claimed_order old_state new_state))
              (avail m)) as [Hle|Hgt].
  - destruct (create_granted old_state new_state m Hle)
      as (p & m' & cells & Hc & Hb & _).
    exists p, m', cells. split; assumption.
  - exists None, {| heap := heap m; avail := O |}, [].
    split; [apply create_refused; exact Hgt|apply built_nil].
Qed.

(** ** C8: an allocation is refused *)

(** C8: when the allocator refuses an allocation while the list is built
    (it grants fewer allocations than the snapshots need events), the [try]
    block has thrown with the events made so far allocated on top of the
    starting heap, the handler frees exactly these, and the call returns
    the null pointer with the heap as it was before the call. *)
Theorem C8_refused_allocation_rolls_back
    (old_state new_state : stratcom_input_state) (m : memory) :
  (avail m < length (events_in_claimed_order old_state new_state))%nat ->
  exists f' cells',
    try_block old_state new_state {| ret := None; mem := m |} = Thrown f'
    /\ built (heap m) (heap (mem f')) (ret f') cells'
    /\ map snd cells'
       = rev (firstn (avail m) (events_in_claimed_order old_state new_state))
    /\ stratcom_free_input_events (heap (mem f')) (ret f') = Ok (heap m)
    /\ stratcom_create_input_events_from_states old_state new_state m
       = Ok (None, {| heap := heap m; avail := O |}).
Proof.
  intros Hlt.
  pose proof (push_all_built (heap m)
                (events_in_claimed_order old_state new_state)
                {| ret := None; mem := m |} [] (built_nil (heap m))) as H.
  rewrite <- try_block_push_all in H.
  destruct (try_block old_state new_state {| ret := None; mem := m |})
    as [f'|f'] eqn:Htry; simpl in H.
  - destruct H as (Hle & _). lia.
  - destruct H as (_ & Hav & cells' & Hb & Hmap). rewrite app_nil_r in Hb.
    exists f', cells'.
    split; [reflexivity|]. split; [exact Hb|]. split; [exact Hmap|].
    split; [apply (built_free _ _ _ _ Hb)|].
    apply create_refused. exact Hlt.
Qed.

Lemma C8_witness :
  exists f' cells',
    try_block sample_old_state sample_new_state
      {| ret := None; mem := empty_memory 2 |} = Thrown f'
    /\ built (heap (empty_memory 2)) (heap (mem f')) (ret f') cells'
    /\ map snd cells'
       = rev (firstn (avail (empty_memory 2))
                (events_in_claimed_order sample_old_state sample_new_state))
    /\ stratcom_free_input_events (heap (mem f')) (ret f')
       = Ok (heap (empty_memory 2))
    /\ stratcom_create_input_events_from_states
         sample_old_state sample_new_state (empty_memory 2)
       = Ok (None, {| heap := heap (empty_memory 2); avail := O |}).
Proof.
  apply (C8_refused_allocation_rolls_back
           sample_old_state sample_new_state (empty_memory 2)).
  vm_compute. lia.
Defined.

(** ** C1: the order of the returned list *)

Lemma returns_events_functional
    (old_state new_state : stratcom_input_state) (m : memory)
    (evs1 evs2 : list event_payload) :
  returns_events old_state new_state m evs1 ->
  returns_events old_state new_state m evs2 ->
  evs1 = evs2.
Proof.
  intros (p1 & m1 & cells1 & Hc1 & Hs1 & <-)
         (p2 & m2 & cells2 & Hc2 & Hs2 & <-).
  rewrite Hc1 in Hc2. injection Hc2 as <- <-.
  f_equal. apply (list_seg_functional (heap m1) p1); assumption.
Qed.

Lemma create_returns_reversed
    (old_state new_state : stratcom_input_state) (m : memory) :
  (length (events_in_claimed_order old_state new_state) <= avail m)%nat ->
  returns_events old_state new_state m
    (rev (events_in_claimed_order old_state new_state)).
Proof.
  intros Hle.
  destruct (create_granted old_state new_state m Hle)
    as (p & m' & cells & Hc & Hb & Hmap & _).
  exists p, m', cells.
  split; [exact Hc|]. split; [apply (built_list_seg _ _ _ _ Hb)|exact Hmap].
Qed.

Lemma rev_axis_events (old_val new_val : Z) (axis : stratcom_axis) :
  rev (axis_events old_val new_val axis) = axis_events old_val new_val axis.
Proof. unfold axis_events. destruct (old_val =? new_val); reflexivity. Qed.

Lemma rev_slider_events (old_state new_state : stratcom_input_state) :
  rev (slider_events old_state new_state)
  = slider_events old_state new_state.
Proof.
  unfold slider_events.
  destruct (bool_decide (slider old_state = slider new_state)); reflexivity.
Qed.

Lemma rev_button_events (old_state new_state : stratcom_input_state)
    (bs : list stratcom_button) :
  rev (button_events old_state new_state bs)
  = button_events old_state new_state (rev bs).
Proof.
  unfold button_events. rewrite <- map_rev. f_equal.
  induction bs as [|b bs IH]; simpl; [reflexivity|].
  rewrite List.filter_app. simpl.
  destruct (button_changed old_state new_state b); simpl; rewrite IH.
  - reflexivity.
  - rewrite app_nil_r. reflexivity.
Qed.

Lemma rev_events_in_claimed_order
    (old_state new_state : stratcom_input_state) :
  rev (events_in_claimed_order old_state new_state)
  = events_newest_first old_state new_state.
Proof.
  unfold events_in_claimed_order, events_newest_first.
  rewrite !rev_app_distr, !rev_axis_events, rev_slider_events,
    rev_button_events, <- !app_assoc.
  reflexivity.
Qed.

(** C1, as the code has it: when every allocation is granted, the returned
    list holds the events in the reverse of the order in which they are
    made: the button events from rec down to button-1 first, then axisZ,
    axisY, axisX, and the slider event last. *)
Theorem C1_returned_list_is_newest_first
    (old_state new_state : stratcom_input_state) (m : memory) :
  (length (events_in_claimed_order old_state new_state) <= avail m)%nat ->
  returns_events old_state new_state m
    (events_newest_first old_state new_state).
Proof.
  intros Hle. rewrite <- rev_events_in_claimed_order.
  apply create_returns_reversed. exact Hle.
Qed.

Lemma C1_witness :
  returns_events sample_old_state sample_new_state (empty_memory 16)
    (events_newest_first sample_old_state sample_new_state).
Proof.
  apply (C1_returned_list_is_newest_first
           sample_old_state sample_new_state (empty_memory 16)).
  vm_compute. lia.
Defined.

(** The claimed order fails: for the sample snapshots the slider and two
    axes change, and the returned list starts with the axisZ event, not
    with the slider event. *)
Lemma C1_counterexample :
  ~ returns_events sample_old_state sample_new_state (empty_memory 16)
      (events_in_claimed_order sample_old_state sample_new_state).
Proof.
  intros Hclaimed.
  assert (Hle : (length (events_in_claimed_order
                           sample_old_state sample_new_state)
                 <= avail (empty_memory 16))%nat) by (vm_compute; lia).
  pose proof (create_returns_reversed _ _ _ Hle) as Hcode.
  pose proof (returns_events_functional _ _ _ _ _ Hclaimed Hcode) as Heq.
  vm_compute in Heq. discriminate Heq.
Qed.

(** ** C7: one event per changed field *)

Lemma count_events_app (kind : event_payload -> bool)
    (xs ys : list event_payload) :
  count_events kind (xs ++ ys)
  = (count_events kind xs + count_events kind ys)%nat.
Proof.
  unfold count_events. rewrite List.filter_app, length_app. reflexivity.
Qed.

Lemma count_events_rev (kind : event_payload -> bool)
    (xs : list event_payload) :
  count_events kind (rev xs) = count_events kind xs.
Proof.
  induction xs as [|x xs IH]; simpl; [reflexivity|].
  rewrite count_events_app, IH. unfold count_events. simpl.
  destruct (kind x); simpl; lia.
Qed.

Lemma count_in_button_events (kind : event_payload -> bool)
    (old_state new_state : stratcom_input_state) (bs : list stratcom_button) :
  (forall b, In b bs -> kind (button_event new_state b) = false) ->
  count_events kind (button_events old_state new_state bs) = O.
Proof.
  unfold count_events, button_events.
  induction bs as [|b bs IH]; intros Hk; simpl; [reflexivity|].
  assert (IH' := IH (fun b' Hb' => Hk b' (or_intror Hb'))).
  destruct (button_changed old_state new_state b); simpl; [|exact IH'].
  rewrite (Hk b (or_introl eq_refl)). exact IH'.
Qed.

Lemma count_button_absent (old_state new_state : stratcom_input_state)
    (b : stratcom_button) (bs : list stratcom_button) :
  ~ In b bs ->
  count_events (is_button_event b) (button_events old_state new_state bs) = O.
Proof.
  intros Hb. apply count_in_button_events.
  intros b' Hb'. simpl. apply Z.eqb_neq. intros ->. contradiction.
Qed.

Lemma count_button_present (old_state new_state : stratcom_input_state)
    (b : stratcom_button) (bs : list stratcom_button) :
  List.NoDup bs -> In b bs ->
  count_events (is_button_event b) (button_events old_state new_state bs)
  = if button_changed old_state new_state b then 1%nat else O.
Proof.
  intros Hnd. induction Hnd as [|x bs Hx Hnd IH]; intros Hb; [destruct Hb|].
  rewrite button_events_cons, count_events_app.
  destruct Hb as [->|Hb].
  - rewrite (count_button_absent _ _ b bs Hx).
    unfold button_events, count_events. simpl.
    destruct (button_changed old_state new_state b); simpl;
      [rewrite Z.eqb_refl|]; reflexivity.
  - rewrite (IH Hb).
    rewrite count_button_absent; [reflexivity|].
    intros [->|[]]. contradiction.
Qed.

Lemma canonical_buttons_NoDup : List.NoDup canonical_buttons.
Proof.
  unfold canonical_buttons.
  repeat (constructor; [vm_compute; intuition discriminate|]).
  constructor.
Qed.

Lemma count_slider_events (old_state new_state : stratcom_input_state) :
  count_events is_slider_event
    (events_in_claimed_order old_state new_state)
  = if bool_decide (slider old_state = slider new_state) then O else 1%nat.
Proof.
  unfold events_in_claimed_order. rewrite !count_events_app.
  rewrite count_in_button_events by reflexivity.
  unfold slider_events, axis_events.
  destruct (bool_decide (slider old_state = slider new_state)),
    (axisX old_state =? axisX new_state),
    (axisY old_state =? axisY new_state),
    (axisZ old_state =? axisZ new_state); reflexivity.
Qed.

Lemma count_axis_events (old_state new_state : stratcom_input_state)
    (axis : stratcom_axis) :
  count_events (is_axis_event axis)
    (events_in_claimed_order old_state new_state)
  = match axis with
    | STRATCOM_AXIS_X =>
        if axisX old_state =? axisX new_state then O else 1%nat
    | STRATCOM_AXIS_Y =>
        if axisY old_state =? axisY new_state then O else 1%nat
    | STRATCOM_AXIS_Z =>
        if axisZ old_state =? axisZ new_state then O else 1%nat
    end.
Proof.
  unfold events_in_claimed_order. rewrite !count_events_app.
  rewrite count_in_button_events by (intros; destruct axis; reflexivity).
  unfold slider_events, axis_events.
  destruct axis,
    (bool_decide (slider old_state = slider new_state)),
    (axisX old_state =? axisX new_state),
    (axisY old_state =? axisY new_state),
    (axisZ old_state =? axisZ new_state); reflexivity.
Qed.

Lemma count_button_events (old_state new_state : stratcom_input_state)
    (b : stratcom_button) :
  count_events (is_button_event b)
    (events_in_claimed_order old_state new_state)
  = count_events (is_button_event b)
      (button_events old_state new_state canonical_buttons).
Proof.
  unfold events_in_claimed_order. rewrite !count_events_app.
  unfold slider_events, axis_events.
  destruct (bool_decide (slider old_state = slider new_state)),
    (axisX old_state =? axisX new_state),
    (axisY old_state =? axisY new_state),
    (axisZ old_state =? axisZ new_state); reflexivity.
Qed.

Lemma unchanged_states_no_events (old_state new_state : stratcom_input_state) :
  buttons old_state = buttons new_state ->
  slider old_state = slider new_state ->
  axisX old_state = axisX new_state ->
  axisY old_state = axisY new_state ->
  axisZ old_state = axisZ new_state ->
  events_in_claimed_order old_state new_state = [].
Proof.
  intros Hb Hs Hx Hy Hz.
  unfold events_in_claimed_order, slider_events, axis_events.
  rewrite (unchanged_buttons_no_events _ _ _ Hb).
  rewrite Hs, Hx, Hy, Hz, !Z.eqb_refl.
  rewrite bool_decide_eq_true_2 by reflexivity. reflexivity.
Qed.

(** When one bit is added to the button word, the pressed-state changes
    for the button of that bit only. *)
Lemma button_changed_one_bit (old_state new_state : stratcom_input_state)
    (i j : Z) :
  0 <= i -> 0 <= j ->
  Z.testbit (buttons old_state) j = false ->
  buttons new_state = Z.lor (buttons old_state) (2 ^ j) ->
  button_changed old_state new_state (2 ^ i) = (i =? j).
Proof.
  intros Hi Hj Hclear Hnew. unfold button_changed.
  rewrite Hnew, !land_pow2_cases, Z.lor_spec, Z.pow2_bits_eqb by assumption.
  destruct (Z.eqb_spec i j) as [->|Hne].
  - rewrite Hclear, Z.eqb_refl. cbn [orb].
    apply negb_true_iff, Z.eqb_neq.
    pose proof (Z.pow_pos_nonneg 2 j). lia.
  - destruct (Z.eqb_spec j i) as [->|_]; [contradiction|].
    rewrite orb_false_r, Z.eqb_refl. reflexivity.
Qed.

Lemma only_button_3_pressed (old_state new_state : stratcom_input_state) :
  Z.testbit (buttons old_state) 2 = false ->
  buttons new_state = Z.lor (buttons old_state) STRATCOM_BUTTON_3 ->
  slider old_state = slider new_state ->
  axisX old_state = axisX new_state ->
  axisY old_state = axisY new_state ->
  axisZ old_state = axisZ new_state ->
  events_in_claimed_order old_state new_state
  = [ (STRATCOM_INPUT_EVENT_BUTTON, desc_button STRATCOM_BUTTON_3 1) ].
Proof.
  intros Hclear Hnew Hs Hx Hy Hz.
  unfold events_in_claimed_order, slider_events, axis_events.
  rewrite Hs, Hx, Hy, Hz, !Z.eqb_refl.
  rewrite bool_decide_eq_true_2 by reflexivity.
  cbn [app].
  change STRATCOM_BUTTON_3 with (2 ^ 2) in Hnew.
  change canonical_buttons
    with [ 2 ^ 0; 2 ^ 1; 2 ^ 2; 2 ^ 3; 2 ^ 4; 2 ^ 5; 2 ^ 6; 2 ^ 7; 2 ^ 8;
           2 ^ 9; 2 ^ 10; 2 ^ 11 ].
  unfold button_events. cbn [List.filter].
  rewrite !(button_changed_one_bit old_state new_state _ 2)
    by (lia || assumption).
  cbn [Z.eqb Pos.eqb map]. unfold button_event.
  rewrite Hnew, land_pow2_cases, Z.lor_spec, Z.pow2_bits_true by lia.
  rewrite orb_true_r. reflexivity.
Qed.

Lemma length_events_in_claimed_order
    (old_state new_state : stratcom_input_state) :
  length (events_in_claimed_order old_state new_state)
  = ((if bool_decide (slider old_state = slider new_state) then O else 1)
     + (if (axisX old_state =? axisX new_state)%Z then O else 1)
     + (if (axisY old_state =? axisY new_state)%Z then O else 1)
     + (if (axisZ old_state =? axisZ new_state)%Z then O else 1)
     + length (List.filter (button_changed old_state new_state)
                 canonical_buttons))%nat.
Proof.
  unfold events_in_claimed_order. rewrite !length_app.
  unfold button_events. rewrite length_map.
  unfold slider_events, axis_events.
  destruct (bool_decide (slider old_state = slider new_state)),
    (axisX old_state =? axisX new_state),
    (axisY old_state =? axisY new_state),
    (axisZ old_state =? axisZ new_state); simpl; lia.
Qed.

(** C7: when every allocation is granted, the returned list has one slider
    event exactly when the slider changed, one event for an axis exactly
    when that axis changed, one event for a canonical button exactly when
    its pressed-state changed, and nothing else; equal snapshots give the
    empty list, and pressing button 3 alone gives the single event
    "button 3, pressed". *)
Theorem C7_one_event_per_changed_field
    (old_state new_state : stratcom_input_state) (m : memory) :
  (length (events_in_claimed_order old_state new_state) <= avail m)%nat ->
  exists evs,
    returns_events old_state new_state m evs
    /\ count_events is_slider_event evs
       = (if bool_decide (slider old_state = slider new_state)
          then O else 1%nat)
    /\ count_events (is_axis_event STRATCOM_AXIS_X) evs
       = (if axisX old_state =? axisX new_state then O else 1%nat)
    /\ count_events (is_axis_event STRATCOM_AXIS_Y) evs
       = (if axisY old_state =? axisY new_state then O else 1%nat)
    /\ count_events (is_axis_event STRATCOM_AXIS_Z) evs
       = (if axisZ old_state =? axisZ new_state then O else 1%nat)
    /\ (forall b, In b canonical_buttons ->
          count_events (is_button_event b) evs
          = if button_changed old_state new_state b then 1%nat else O)
    /\ (forall b, ~ In b canonical_buttons ->
          count_events (is_button_event b) evs = O)
    /\ length evs
       = (count_events is_slider_event evs
          + count_events (is_axis_event STRATCOM_AXIS_X) evs
          + count_events (is_axis_event STRATCOM_AXIS_Y) evs
          + count_events (is_axis_event STRATCOM_AXIS_Z) evs
          + length (List.filter (button_changed old_state new_state)
                      canonical_buttons))%nat
    /\ (buttons old_state = buttons new_state ->
        slider old_state = slider new_state ->
        axisX old_state = axisX new_state ->
        axisY old_state = axisY new_state ->
        axisZ old_state = axisZ new_state ->
        evs = [])
    /\ (Z.testbit (buttons old_state) 2 = false ->
        buttons new_state = Z.lor (buttons old_state) STRATCOM_BUTTON_3 ->
        slider old_state = slider new_state ->
        axisX old_state = axisX new_state ->
        axisY old_state = axisY new_state ->
        axisZ old_state = axisZ new_state ->
        evs = [ (STRATCOM_INPUT_EVENT_BUTTON,
                 desc_button STRATCOM_BUTTON_3 1) ]).
Proof.
  intros Hle.
  exists (rev (events_in_claimed_order old_state new_state)).
  split; [apply create_returns_reversed; exact Hle|].
  rewrite !count_events_rev, length_rev.
  rewrite count_slider_events.
  rewrite !(count_axis_events old_state new_state).
  repeat split.
  - intros b Hb. rewrite count_events_rev, count_button_events.
    apply count_button_present; [apply canonical_buttons_NoDup|exact Hb].
  - intros b Hb. rewrite count_events_rev, count_button_events.
    apply count_button_absent. exact Hb.
  - apply length_events_in_claimed_order.
  - intros Hb Hs Hx Hy Hz.
    rewrite unchanged_states_no_events by assumption. reflexivity.
  - intros Hclear Hnew Hs Hx Hy Hz.
    rewrite only_button_3_pressed by assumption. reflexivity.
Qed.

Lemma C7_witness :
  exists evs,
    returns_events sample_old_state sample_new_state (empty_memory 16) evs
    /\ count_events is_slider_event evs = 1%nat
    /\ count_events (is_axis_event STRATCOM_AXIS_X) evs = 1%nat
    /\ count_events (is_axis_event STRATCOM_AXIS_Y) evs = O
    /\ count_events (is_axis_event STRATCOM_AXIS_Z) evs = 1%nat
    /\ length evs = 3%nat.
Proof.
  destruct (C7_one_event_per_changed_field
              sample_old_state sample_new_state (empty_memory 16))
    as (evs & Hret & Hs & Hx & Hy & Hz & _ & _ & Hlen & _).
  - vm_compute. lia.
  - exists evs. rewrite Hlen, Hs, Hx, Hy, Hz.
    repeat split; try assumption; reflexivity.
Defined.

(** ** C9: appending to an existing list *)

Lemma list_seg_extends (h h' : gmap positive stratcom_input_event)
    (p : option positive) (cells : list (positive * event_payload)) :
  (forall a v, h !! a = Some v -> h' !! a = Some v) ->
  list_seg h p cells -> list_seg h' p cells.
Proof.
  intros Hext. revert p.
  induction cells as [|c cells IH]; intros p Hseg; simpl in *; [exact Hseg|].
  destruct Hseg as (Hp & nx & Hc & Hrest).
  split; [exact Hp|]. exists nx. split; [apply Hext; exact Hc|].
  apply IH. exact Hrest.
Qed.

Lemma list_seg_insert_other (h : gmap positive stratcom_input_event)
    (p : option positive) (cells : list (positive * event_payload))
    (t : positive) (v : stratcom_input_event) :
  (forall c, In c cells -> fst c <> t) ->
  list_seg h p cells -> list_seg (<[t := v]> h) p cells.
Proof.
  revert p.
  induction cells as [|c cells IH]; intros p Hne Hseg; simpl in *;
    [exact Hseg|].
  destruct Hseg as (Hp & nx & Hc & Hrest).
  split; [exact Hp|]. exists nx. split.
  - rewrite lookup_insert_ne; [exact Hc|].
    intros E. apply (Hne c); [left; reflexivity|symmetry; exact E].
  - apply IH; [|exact Hrest]. intros c' Hc'. apply Hne. right. exact Hc'.
Qed.

(** The walk along a list ends at its last node, in as many steps as the
    list has links. *)
Lemma walk_to_tail_last (h : gmap positive stratcom_input_event)
    (cells : list (positive * event_payload)) (fuel : nat) (first : positive) :
  list_seg h (Some first) cells ->
  (length cells <= S fuel)%nat ->
  exists t ev,
    last cells = Some (t, ev)
    /\ h !! t = Some {| payload := ev; next := None |}
    /\ walk_to_tail fuel h first = Ok t.
Proof.
  revert fuel first.
  induction cells as [|[a x] cells IH]; intros fuel first Hseg Hlen;
    simpl in Hseg.
  - discriminate.
  - destruct Hseg as (Hp & nx & Hc & Hrest). injection Hp as ->.
    simpl in Hc. destruct cells as [|c' cells].
    + simpl in Hrest. subst nx. exists a, x.
      split; [reflexivity|]. split; [exact Hc|].
      destruct fuel; simpl; rewrite Hc; reflexivity.
    + assert (Hnx : nx = Some (fst c')) by (simpl in Hrest; tauto).
      subst nx. destruct fuel as [|k]; [simpl in Hlen; lia|].
      destruct (IH k (fst c') Hrest) as (t & ev & Hlast & Ht & Hwalk);
        [simpl in *; lia|].
      exists t, ev. split; [exact Hlast|]. split; [exact Ht|].
      simpl. rewrite Hc. simpl. exact Hwalk.
Qed.

(** Writing the link of the last node joins the two lists. *)
Lemma list_seg_link_tail (h : gmap positive stratcom_input_event)
    (cells new_cells : list (positive * event_payload))
    (first t : positive) (ev : event_payload) (q : option positive) :
  list_seg h (Some first) cells ->
  last cells = Some (t, ev) ->
  h !! t = Some {| payload := ev; next := None |} ->
  list_seg (<[t := {| payload := ev; next := q |}]> h) q new_cells ->
  list_seg (<[t := {| payload := ev; next := q |}]> h) (Some first)
    (cells ++ new_cells).
Proof.
  intros Hseg Hlast Ht Hnew. revert first Hseg Hlast.
  induction cells as [|[a x] cells IH]; intros first Hseg Hlast;
    simpl in Hseg.
  - discriminate.
  - destruct Hseg as (Hp & nx & Hc & Hrest). injection Hp as ->.
    simpl in Hc. destruct cells as [|c' cells].
    + simpl in Hlast. injection Hlast as -> ->.
      simpl. split; [reflexivity|]. exists q.
      split; [apply lookup_insert_eq|exact Hnew].
    + assert (Hnx : nx = Some (fst c')) by (simpl in Hrest; tauto).
      subst nx.
      change ((a, x) :: c' :: cells) with ([(a, x)] ++ c' :: cells) in Hlast.
      rewrite last_app in Hlast. simpl last in Hlast.
      assert (Hlast' : last (c' :: cells) = Some (t, ev)).
      { destruct (last (c' :: cells)) eqn:E; [exact Hlast|].
        apply last_None in E. discriminate. }
      simpl. split; [reflexivity|]. exists (Some (fst c')). split.
      * rewrite lookup_insert_ne; [exact Hc|].
        intros ->. rewrite Ht in Hc. discriminate.
      * apply (IH (fst c') Hrest Hlast').
Qed.

(** C9: for an existing list that is not empty ([first] is not null and
    leads through [cells] to the null pointer), with enough iterations to
    walk along it, [stratcom_append_input_events_from_states] returns the
    list that the constructor generated from the two snapshots, and the
    heap it leaves is the constructor's heap with one write: the link of
    the last node of the existing list now points to the generated list.
    Every other node, and the payload of the last node, is as before; the
    existing list has become the two lists joined.  On the null pointer
    the call is undefined. *)
Theorem C9_append_links_after_tail
    (fuel : nat) (first : positive) (cells : list (positive * event_payload))
    (old_state new_state : stratcom_input_state) (m : memory) :
  list_seg (heap m) (Some first) cells ->
  (length cells <= S fuel)%nat ->
  exists new_events m1 new_cells t ev m',
    stratcom_create_input_events_from_states old_state new_state m
      = Ok (new_events, m1)
    /\ list_seg (heap m1) new_events new_cells
    /\ last cells = Some (t, ev)
    /\ heap m !! t = Some {| payload := ev; next := None |}
    /\ stratcom_append_input_events_from_states
         fuel (Some first) old_state new_state m
       = Ok (new_events, m')
    /\ heap m'
       = <[t := {| payload := ev; next := new_events |}]> (heap m1)
    /\ (forall a v, heap m !! a = Some v -> a <> t -> heap m' !! a = Some v)
    /\ list_seg (heap m') (Some first) (cells ++ new_cells)
    /\ list_seg (heap m') new_events new_cells
    /\ stratcom_append_input_events_from_states
         fuel None old_state new_state m
       = Undefined.
Proof.
  intros Hseg Hlen.
  destruct (create_total old_state new_state m)
    as (q & m1 & new_cells & Hcreate & Hbuilt).
  pose proof (built_extends _ _ _ _ Hbuilt) as Hext.
  pose proof (list_seg_extends _ _ _ _ Hext Hseg) as Hseg1.
  destruct (walk_to_tail_last _ _ fuel first Hseg Hlen)
    as (t & ev & Hlast & Ht & _).
  destruct (walk_to_tail_last _ _ fuel first Hseg1 Hlen)
    as (t1 & ev1 & Hlast1 & Ht1 & Hwalk).
  rewrite Hlast in Hlast1. injection Hlast1 as <- <-.
  set (h' := <[t := {| payload := ev; next := q |}]> (heap m1)).
  assert (Hnew : list_seg h' q new_cells).
  { apply list_seg_insert_other; [|apply (built_list_seg _ _ _ _ Hbuilt)].
    intros c Hc E.
    pose proof (built_cells_fresh _ _ _ _ Hbuilt c Hc) as Hfresh.
    rewrite E, Ht in Hfresh. discriminate. }
  exists q, m1, new_cells, t, ev, {| heap := h'; avail := avail m1 |}.
  split; [exact Hcreate|].
  split; [apply (built_list_seg _ _ _ _ Hbuilt)|].
  split; [exact Hlast|]. split; [exact Ht|].
  split.
  { unfold stratcom_append_input_events_from_states.
    rewrite Hcreate, Hwalk, Ht1. reflexivity. }
  split; [reflexivity|].
  split.
  { intros a v Hv Hne. simpl. unfold h'.
    rewrite lookup_insert_ne by (intros E; apply Hne; symmetry; exact E).
    apply Hext. exact Hv. }
  split; [apply (list_seg_link_tail _ _ _ _ _ _ _ Hseg1 Hlast Ht1 Hnew)|].
  split; [exact Hnew|].
  unfold stratcom_append_input_events_from_states.
  rewrite Hcreate. reflexivity.
Qed.

Lemma C9_witness :
  exists new_events m1 new_cells t ev m',
    stratcom_create_input_events_from_states
      sample_old_state sample_new_state sample_list_memory
      = Ok (new_events, m1)
    /\ list_seg (heap m1) new_events new_cells
    /\ last sample_cells = Some (t, ev)
    /\ heap sample_list_memory !! t = Some {| payload := ev; next := None |}
    /\ stratcom_append_input_events_from_states
         1 (Some 10%positive) sample_old_state sample_new_state
         sample_list_memory
       = Ok (new_events, m')
    /\ heap m'
       = <[t := {| payload := ev; next := new_events |}]> (heap m1)
    /\ (forall a v, heap sample_list_memory !! a = Some v -> a <> t ->
          heap m' !! a = Some v)
    /\ list_seg (heap m') (Some 10%positive) (sample_cells ++ new_cells)
    /\ list_seg (heap m') new_events new_cells
    /\ stratcom_append_input_events_from_states
         1 None sample_old_state sample_new_state sample_list_memory
       = Undefined.
Proof.
  apply (C9_append_links_after_tail 1 10%positive sample_cells
           sample_old_state sample_new_state sample_list_memory).
  - simpl. split; [reflexivity|].
    exists (Some 11%positive). split; [reflexivity|].
    split; [reflexivity|].
    exists None. split; reflexivity.
  - simpl. lia.
Defined.

(** ** The code on concrete inputs *)

Example sample_events_newest_first :
  events_returned sample_old_state sample_new_state (empty_memory 16)
  = Some [ (STRATCOM_INPUT_EVENT_AXIS, desc_axis STRATCOM_AXIS_Z (-7));
           (STRATCOM_INPUT_EVENT_AXIS, desc_axis STRATCOM_AXIS_X 5);
           (STRATCOM_INPUT_EVENT_SLIDER, desc_slider STRATCOM_SLIDER_1) ].
Proof. vm_compute. reflexivity. Qed.

Example sample_events_refused :
  stratcom_create_input_events_from_states
    sample_old_state sample_new_state (empty_memory 2)
  = Ok (None, empty_memory 0).
Proof. vm_compute. reflexivity. Qed.

Example two_buttons_pressed :
  events_returned
    (mk_input_state 0 STRATCOM_SLIDER_3 0 0 0)
    (mk_input_state 0x0804 STRATCOM_SLIDER_3 0 0 0)
    (empty_memory 16)
  = Some [ (STRATCOM_INPUT_EVENT_BUTTON, desc_button STRATCOM_BUTTON_REC 1);
           (STRATCOM_INPUT_EVENT_BUTTON, desc_button STRATCOM_BUTTON_3 1) ].
Proof. vm_compute. reflexivity. Qed.

Example decode_zero_report :
  evaluateInputReport (mk_input_report 0x01 0 0 0 0 0 0)
    (input_state sample_device)
  = (STRATCOM_RET_SUCCESS, mk_input_state 0 STRATCOM_SLIDER_3 0 0 0).
Proof. vm_compute. reflexivity. Qed.

Example decode_axisX_511 :
  axisX (snd (evaluateInputReport (mk_input_report 0x01 0xFF 0x01 0 0 0 0)
                (input_state sample_device)))
  = 511.
Proof. vm_compute. reflexivity. Qed.

Example decode_axisX_minus_512 :
  axisX (snd (evaluateInputReport (mk_input_report 0x01 0x00 0x02 0 0 0 0)
                (input_state sample_device)))
  = -512.
Proof. vm_compute. reflexivity. Qed.

Example led_both_bits_stay_when_not_addressed :
  led_button_state
    (stratcom_set_button_led_state_without_flushing
       (set_led_button_state sample_device 0x0003 false)
       STRATCOM_LEDBUTTON_2 STRATCOM_LED_ON)
  = 0x0007.
Proof. vm_compute. reflexivity. Qed.

(** * Further properties of the code *)

(** ** Setting and reading back the state of a LED *)

Lemma single_led_not_pseudo (led : stratcom_button_led) :
  In led single_led_buttons ->
  (led =? STRATCOM_LEDBUTTON_ALL) || (led =? STRATCOM_LEDBUTTON_NONE) = false.
Proof.
  unfold single_led_buttons. simpl. intros H.
  repeat (destruct H as [<-|H]; [reflexivity|]).
  contradiction.
Qed.

(** The getter reads the two bits of a LED, the on-bit first. *)
Lemma get_button_led_state_by_bits (device : stratcom_device)
    (led : stratcom_button_led) (j : Z) :
  In led single_led_buttons -> 0 <= j -> led = 2 ^ j ->
  stratcom_get_button_led_state device led
  = if Z.testbit (led_button_state device) j then STRATCOM_LED_ON
    else if Z.testbit (led_button_state device) (j + 1) then STRATCOM_LED_BLINK
    else STRATCOM_LED_OFF.
Proof.
  intros Hled Hj Hpow. unfold stratcom_get_button_led_state.
  rewrite (single_led_not_pseudo led Hled).
  fold (led_on_bit_set (led_button_state device) led).
  fold (led_blink_bit_set (led_button_state device) led).
  rewrite Hpow, led_on_bit_set_pow2, led_blink_bit_set_pow2 by assumption.
  reflexivity.
Qed.

Lemma unaddressed_bit (sel led : stratcom_button_led) (j : Z) :
  In sel led_selectors -> In j on_bit_positions -> led = 2 ^ j ->
  ~ addresses sel led -> Z.testbit sel j = false.
Proof.
  intros Hsel Hj Hpow Hna.
  destruct (on_bit_position_facts j Hj) as [Hr _].
  unfold led_selectors in Hsel. apply in_app_iff in Hsel.
  destruct Hsel as [Hs|Hs].
  - destruct (single_led_pow2 sel Hs) as (j' & Hj' & ->).
    apply Z.pow2_bits_false. intros ->. apply Hna. left. symmetry. exact Hpow.
  - simpl in Hs. destruct Hs as [<-|[<-|[]]].
    + exfalso. apply Hna. right. reflexivity.
    + apply Z.bits_0.
Qed.

Lemma set_then_get_led_state
    (device : stratcom_device) (sel led : stratcom_button_led)
    (state : stratcom_led_state) :
  In led single_led_buttons ->
  addresses sel led ->
  stratcom_get_button_led_state
    (stratcom_set_button_led_state_without_flushing device sel state) led
  = state.
Proof.
  intros Hled Haddr.
  destruct (single_led_pow2 led Hled) as (j & Hj & Hpow).
  destruct (on_bit_position_facts j Hj) as [Hr _].
  assert (Hsel : In sel led_selectors).
  { destruct Haddr as [->| ->].
    - apply single_led_is_selector. exact Hled.
    - unfold led_selectors. apply in_or_app. right. left. reflexivity. }
  rewrite (get_button_led_state_by_bits _ led j Hled ltac:(lia) Hpow).
  pose proof (setter_bits device sel state j Hsel Hj) as H. cbv zeta in H.
  rewrite (addressed_bit sel led j Hj Hpow Haddr) in H.
  destruct state; destruct H as [-> ->];
    rewrite ?orb_true_r, ?andb_false_r; reflexivity.
Qed.

(** X1: whatever the LED word was, after a call of the setter whose
    selector addresses a LED (its own selector or ALL) the getter returns,
    for that LED, the state that was set. *)
Theorem X1_set_then_get_led_state
    (device : stratcom_device) (sel led : stratcom_button_led)
    (state : stratcom_led_state) :
  In led single_led_buttons ->
  addresses sel led ->
  stratcom_get_button_led_state
    (stratcom_set_button_led_state_without_flushing device sel state) led
  = state.
Proof.
  intros Hled Haddr. apply set_then_get_led_state; assumption.
Qed.

Lemma X1_witness :
  stratcom_get_button_led_state
    (stratcom_set_button_led_state_without_flushing
       (set_led_button_state sample_device 0x0003 false)
       STRATCOM_LEDBUTTON_ALL STRATCOM_LED_BLINK)
    STRATCOM_LEDBUTTON_5
  = STRATCOM_LED_BLINK.
Proof.
  apply (X1_set_then_get_led_state
           (set_led_button_state sample_device 0x0003 false)
           STRATCOM_LEDBUTTON_ALL STRATCOM_LEDBUTTON_5 STRATCOM_LED_BLINK).
  - simpl. tauto.
  - right. reflexivity.
Defined.

(** X2: a call of the setter with a selector of the enumeration that does
    not address a LED leaves the state that the getter returns for that
    LED as it was. *)
Theorem X2_set_keeps_other_leds
    (device : stratcom_device) (sel led : stratcom_button_led)
    (state : stratcom_led_state) :
  In sel led_selectors ->
  In led single_led_buttons ->
  ~ addresses sel led ->
  stratcom_get_button_led_state
    (stratcom_set_button_led_state_without_flushing device sel state) led
  = stratcom_get_button_led_state device led.
Proof.
  intros Hsel Hled Hna.
  destruct (single_led_pow2 led Hled) as (j & Hj & Hpow).
  destruct (on_bit_position_facts j Hj) as [Hr _].
  rewrite !(get_button_led_state_by_bits _ led j Hled ltac:(lia) Hpow).
  pose proof (setter_bits device sel state j Hsel Hj) as H. cbv zeta in H.
  rewrite (unaddressed_bit sel led j Hsel Hj Hpow Hna) in H.
  destruct state; destruct H as [-> ->];
    rewrite ?orb_false_r, ?andb_true_r; reflexivity.
Qed.

Lemma X2_witness :
  stratcom_get_button_led_state
    (stratcom_set_button_led_state_without_flushing
       sample_device STRATCOM_LEDBUTTON_3 STRATCOM_LED_ON)
    STRATCOM_LEDBUTTON_2
  = stratcom_get_button_led_state sample_device STRATCOM_LEDBUTTON_2.
Proof.
  apply (X2_set_keeps_other_leds sample_device
           STRATCOM_LEDBUTTON_3 STRATCOM_LEDBUTTON_2 STRATCOM_LED_ON).
  - simpl. tauto.
  - simpl. tauto.
  - intros [H|H]; discriminate H.
Defined.

(** X3: of two calls of the setter with the same selector, only the second
    one counts: the LED word is the one that the second call alone would
    have left.  This holds for every selector value. *)
Theorem X3_last_led_state_wins
    (device : stratcom_device) (sel : stratcom_button_led)
    (first second : stratcom_led_state) :
  led_button_state
    (stratcom_set_button_led_state_without_flushing
       (stratcom_set_button_led_state_without_flushing device sel first)
       sel second)
  = led_button_state
      (stratcom_set_button_led_state_without_flushing device sel second).
Proof.
  unfold stratcom_set_button_led_state_without_flushing, set_led_button_state,
    and_assign_u16, or_assign_u16.
  generalize (to_u16 sel) as mask. intros mask.
  destruct first, second; simpl led_button_state;
    apply Z.bits_inj'; intros i Hi;
    repeat first [ rewrite testbit_to_u16 | rewrite Z.lor_spec
                 | rewrite Z.land_spec | rewrite Z.lnot_spec by lia ];
    destruct (i <? 16), (Z.testbit (led_button_state device) i),
      (Z.testbit mask i), (Z.testbit (Z.shiftl mask 1) i); reflexivity.
Qed.

Lemma single_leds_disjoint (led1 led2 : stratcom_button_led) (i : Z) :
  In led1 single_led_buttons -> In led2 single_led_buttons ->
  led1 <> led2 -> 0 <= i ->
  (Z.testbit led1 i || Z.testbit (Z.shiftl led1 1) i)
  && (Z.testbit led2 i || Z.testbit (Z.shiftl led2 1) i) = false.
Proof.
  intros H1 H2 Hne Hi.
  destruct (single_led_pow2 led1 H1) as (j1 & Hj1 & ->).
  destruct (single_led_pow2 led2 H2) as (j2 & Hj2 & ->).
  destruct (on_bit_position_facts j1 Hj1) as [Hr1 Hp1].
  destruct (on_bit_position_facts j2 Hj2) as [Hr2 Hp2].
  assert (Hj : j1 <> j2) by (intros ->; apply Hne; reflexivity).
  pose proof (Zmod_odd j1) as Hm1. rewrite Hp1 in Hm1.
  pose proof (Zmod_odd j2) as Hm2. rewrite Hp2 in Hm2.
  change (j1 mod 2 = 0) in Hm1. change (j2 mod 2 = 0) in Hm2.
  pose proof (Z.div_mod j1 2 ltac:(lia)) as Hd1.
  pose proof (Z.div_mod j2 2 ltac:(lia)) as Hd2.
  rewrite Hm1 in Hd1. rewrite Hm2 in Hd2.
  rewrite !Z.shiftl_spec, !Z.pow2_bits_eqb by lia.
  destruct (Z.eqb_spec j1 i), (Z.eqb_spec j1 (i - 1)),
    (Z.eqb_spec j2 i), (Z.eqb_spec j2 (i - 1));
    simpl; try reflexivity; exfalso; lia.
Qed.

(** X4: calls of the setter for two different LEDs commute: the LED word
    does not depend on the order of the two calls. *)
Theorem X4_setters_of_different_leds_commute
    (device : stratcom_device) (led1 led2 : stratcom_button_led)
    (state1 state2 : stratcom_led_state) :
  In led1 single_led_buttons ->
  In led2 single_led_buttons ->
  led1 <> led2 ->
  led_button_state
    (stratcom_set_button_led_state_without_flushing
       (stratcom_set_button_led_state_without_flushing device led1 state1)
       led2 state2)
  = led_button_state
      (stratcom_set_button_led_state_without_flushing
         (stratcom_set_button_led_state_without_flushing device led2 state2)
         led1 state1).
Proof.
  intros H1 H2 Hne.
  unfold stratcom_set_button_led_state_without_flushing, set_led_button_state,
    and_assign_u16, or_assign_u16.
  rewrite (selector_is_u16 led1 (single_led_is_selector led1 H1)).
  rewrite (selector_is_u16 led2 (single_led_is_selector led2 H2)).
  destruct state1, state2; simpl led_button_state;
    apply Z.bits_inj'; intros i Hi;
    pose proof (single_leds_disjoint led1 led2 i H1 H2 Hne Hi) as Hd;
    repeat first [ rewrite testbit_to_u16 | rewrite Z.lor_spec
                 | rewrite Z.land_spec | rewrite Z.lnot_spec by lia ];
    destruct (i <? 16), (Z.testbit (led_button_state device) i),
      (Z.testbit led1 i), (Z.testbit (Z.shiftl led1 1) i),
      (Z.testbit led2 i), (Z.testbit (Z.shiftl led2 1) i);
    simpl in Hd; try discriminate Hd; reflexivity.
Qed.

Lemma X4_witness :
  led_button_state
    (stratcom_set_button_led_state_without_flushing
       (stratcom_set_button_led_state_without_flushing
          sample_device STRATCOM_LEDBUTTON_1 STRATCOM_LED_ON)
       STRATCOM_LEDBUTTON_REC STRATCOM_LED_BLINK)
  = led_button_state
      (stratcom_set_button_led_state_without_flushing
         (stratcom_set_button_led_state_without_flushing
            sample_device STRATCOM_LEDBUTTON_REC STRATCOM_LED_BLINK)
         STRATCOM_LEDBUTTON_1 STRATCOM_LED_ON).
Proof.
  apply (X4_setters_of_different_leds_commute sample_device
           STRATCOM_LEDBUTTON_1 STRATCOM_LEDBUTTON_REC
           STRATCOM_LED_ON STRATCOM_LED_BLINK).
  - simpl. tauto.
  - simpl. tauto.
  - discriminate.
Defined.

(** X5: [stratcom_set_button_led_state] changes the cached LED word like
    the setter without flushing, whether or not the report reaches the
    device; it returns success exactly when the transport took all three
    bytes, and the cache is marked as flushed then and as unflushed
    otherwise. *)
Theorem X5_set_and_flush_outcome
    (sent : Z) (device : stratcom_device) (led : stratcom_button_led)
    (state : stratcom_led_state) :
  let result := stratcom_set_button_led_state sent device led state in
  led_button_state (snd result)
  = led_button_state
      (stratcom_set_button_led_state_without_flushing device led state)
  /\ (fst result = STRATCOM_RET_SUCCESS <-> sent = sizeof_feature_report)
  /\ (fst result = STRATCOM_RET_ERROR <-> sent <> sizeof_feature_report)
  /\ stratcom_led_state_has_unflushed_changes (snd result)
     = (if sent =? sizeof_feature_report then 0 else 1)
  /\ led_feature_report (snd result)
     = led_feature_report
         (stratcom_set_button_led_state_without_flushing device led state).
Proof.
  unfold stratcom_set_button_led_state, stratcom_flush_button_led_state.
  destruct (Z.eqb_spec sent sizeof_feature_report) as [E|E]; simpl;
    repeat split; try reflexivity; try congruence; try tauto;
    intros; try discriminate; try contradiction.
Qed.

(** X6: the bytes of a LED feature report survive being read into the
    cache and built again: after [stratcom_read_button_led_state] took the
    report, the report that a flush builds has the same second and third
    byte, and the cache is marked as flushed. *)
Theorem X6_led_report_read_then_flush
    (rep : feature_report) (device : stratcom_device) :
  is_u8 (fr_b1 rep) -> is_u8 (fr_b2 rep) ->
  let device' :=
    snd (stratcom_read_button_led_state sizeof_feature_report rep device) in
  led_feature_report device'
  = {| fr_b0 := 0x01; fr_b1 := fr_b1 rep; fr_b2 := fr_b2 rep |}
  /\ is_u16 (led_button_state device')
  /\ stratcom_led_state_has_unflushed_changes device' = 0.
Proof.
  intros H1 H2 device'. subst device'. unfold is_u8 in H1, H2.
  unfold stratcom_read_button_led_state. rewrite Z.eqb_refl. cbn [negb snd].
  unfold led_feature_report, set_led_button_state; cbn [led_button_state].
  rewrite (to_u16_small (fr_b1 rep)) by (unfold is_u16; lia).
  rewrite (to_u16_small (fr_b2 rep)) by (unfold is_u16; lia).
  assert (Hw : Z.lor (fr_b1 rep) (Z.shiftl (fr_b2 rep) 8)
               = fr_b1 rep + 2 ^ 8 * fr_b2 rep).
  { rewrite Z.shiftl_mul_pow2 by lia.
    rewrite <- Z.add_nocarry_lor; [lia|].
    apply Z.bits_inj'. intros i Hi.
    rewrite Z.land_spec, Z.bits_0, Z.mul_pow2_bits by lia.
    destruct (Z.ltb_spec i 8).
    - rewrite (Z.testbit_neg_r _ (i - 8)) by lia. apply andb_false_r.
    - rewrite (proj1 (below_pow2_bits 8 (fr_b1 rep) ltac:(lia) ltac:(lia)))
        by lia.
      reflexivity. }
  rewrite Hw.
  assert (Hu : is_u16 (fr_b1 rep + 2 ^ 8 * fr_b2 rep)) by (unfold is_u16; lia).
  rewrite (to_u16_small _ Hu).
  split; [|split; [exact Hu|reflexivity]].
  change 255 with (Z.ones 8). rewrite !Z.land_ones by lia.
  rewrite Z.shiftr_div_pow2 by lia. unfold to_u8.
  rewrite !Z.mod_mod by lia.
  replace ((fr_b1 rep + 2 ^ 8 * fr_b2 rep) mod 2 ^ 8) with (fr_b1 rep).
  2:{ rewrite (Z.mul_comm (2 ^ 8)), Z.mod_add by lia.
      symmetry. apply Z.mod_small. lia. }
  replace ((fr_b1 rep + 2 ^ 8 * fr_b2 rep) / 2 ^ 8) with (fr_b2 rep).
  2:{ rewrite (Z.mul_comm (2 ^ 8)), Z.div_add by lia.
      rewrite (Z.div_small (fr_b1 rep)) by lia. lia. }
  rewrite (Z.mod_small (fr_b2 rep)) by lia.
  reflexivity.
Qed.

Lemma X6_witness :
  let rep := mk_feature_report 0x01 0x46 0x12 in
  let device' :=
    snd (stratcom_read_button_led_state
           sizeof_feature_report rep sample_device) in
  led_feature_report device'
  = {| fr_b0 := 0x01; fr_b1 := fr_b1 rep; fr_b2 := fr_b2 rep |}
  /\ is_u16 (led_button_state device')
  /\ stratcom_led_state_has_unflushed_changes device' = 0.
Proof.
  apply (X6_led_report_read_then_flush
           (mk_feature_report 0x01 0x46 0x12) sample_device).
  - unfold is_u8. simpl. lia.
  - unfold is_u8. simpl. lia.
Defined.

(** ** The blink interval *)

(** X7: [stratcom_set_led_blink_interval] sends its report and writes
    nothing into the device: whatever the transport answers, the getter
    still returns the interval that was cached before.  The cache takes
    the new interval only when the report is read back by
    [stratcom_read_led_blink_intervals], which leaves the LED word and its
    flag alone. *)
Theorem X7_blink_interval_is_cached_on_read_only
    (sent : Z) (device : stratcom_device) (on_time off_time : Z) :
  let after_set :=
    snd (stratcom_set_led_blink_interval sent device on_time off_time) in
  let after_read :=
    snd (stratcom_read_led_blink_intervals sizeof_feature_report
           (led_blink_report on_time off_time) after_set) in
  stratcom_get_led_blink_interval after_set
  = stratcom_get_led_blink_interval device
  /\ stratcom_get_led_blink_interval after_read = (on_time, off_time)
  /\ led_button_state after_read = led_button_state device
  /\ stratcom_led_state_has_unflushed_changes after_read
     = stratcom_led_state_has_unflushed_changes device
  /\ input_state after_read = input_state device.
Proof.
  intros after_set after_read.
  assert (Hset : after_set = device).
  { subst after_set. unfold stratcom_set_led_blink_interval.
    destruct (negb (sent =? sizeof_feature_report)); reflexivity. }
  subst after_read. rewrite Hset.
  unfold stratcom_read_led_blink_intervals. rewrite Z.eqb_refl.
  repeat split.
Qed.

(** ** The LED of a button *)

Lemma led_for_button_single (button : stratcom_button) :
  In button buttons_with_led ->
  In (stratcom_get_led_for_button button) single_led_buttons.
Proof.
  unfold buttons_with_led. simpl. intros H.
  repeat (destruct H as [<-|H]; [simpl; tauto|]).
  contradiction.
Qed.

(** X8: [stratcom_get_led_for_button] gives a selector of one LED for the
    buttons 1 to 6 and rec, different LEDs for different buttons, and NONE
    for every other value; setting a state through the LED of a button and
    asking for it through the same LED returns that state. *)
Theorem X8_led_for_button
    (device : stratcom_device) (button : stratcom_button)
    (state : stratcom_led_state) :
  In button buttons_with_led ->
  In (stratcom_get_led_for_button button) single_led_buttons
  /\ (forall other, In other buttons_with_led ->
        stratcom_get_led_for_button other
        = stratcom_get_led_for_button button ->
        other = button)
  /\ stratcom_get_button_led_state
       (stratcom_set_button_led_state_without_flushing
          device (stratcom_get_led_for_button button) state)
       (stratcom_get_led_for_button button)
     = state
  /\ (forall other, ~ In other buttons_with_led ->
        stratcom_get_led_for_button other = STRATCOM_LEDBUTTON_NONE).
Proof.
  intros Hb.
  pose proof (led_for_button_single button Hb) as Hled.
  split; [exact Hled|]. split; [|split].
  - intros other Ho Heq.
    unfold buttons_with_led in Hb, Ho. simpl in Hb, Ho.
    repeat (destruct Hb as [<-|Hb];
            [repeat (destruct Ho as [<-|Ho];
                     [first [reflexivity|discriminate Heq]|]);
             contradiction|]).
    contradiction.
  - apply set_then_get_led_state; [exact Hled|left; reflexivity].
  - intros other Ho. unfold stratcom_get_led_for_button.
    repeat match goal with
           | |- context [ other =? ?y ] =>
               destruct (Z.eqb_spec other y) as [->|?];
               [exfalso; apply Ho; simpl; tauto|]
           end.
    reflexivity.
Qed.

Lemma X8_witness :
  In (stratcom_get_led_for_button STRATCOM_BUTTON_REC) single_led_buttons
  /\ (forall other, In other buttons_with_led ->
        stratcom_get_led_for_button other
        = stratcom_get_led_for_button STRATCOM_BUTTON_REC ->
        other = STRATCOM_BUTTON_REC)
  /\ stratcom_get_button_led_state
       (stratcom_set_button_led_state_without_flushing
          sample_device (stratcom_get_led_for_button STRATCOM_BUTTON_REC)
          STRATCOM_LED_BLINK)
       (stratcom_get_led_for_button STRATCOM_BUTTON_REC)
     = STRATCOM_LED_BLINK
  /\ (forall other, ~ In other buttons_with_led ->
        stratcom_get_led_for_button other = STRATCOM_LEDBUTTON_NONE).
Proof.
  apply (X8_led_for_button sample_device STRATCOM_BUTTON_REC
           STRATCOM_LED_BLINK).
  simpl. tauto.
Defined.

(** ** Reading input *)




Lemma read_input_good_report (report : input_report)
    (device : stratcom_device) :
  b0 report = 0x01 ->
  input_state (snd (stratcom_read_input sizeof_input_report report device))
  = snd (evaluateInputReport report (input_state device)).
Proof.
  intros Hb. unfold stratcom_read_input. rewrite Z.eqb_refl.
  unfold evaluate_into_device.
  destruct (evaluateInputReport report (input_state device)) as [r st].
  reflexivity.
Qed.

Lemma decoded_buttons_bits (report : input_report)
    (st : stratcom_input_state) (i : Z) :
  input_report_ok report -> b0 report = 0x01 -> 0 <= i ->
  Z.testbit (buttons (snd (evaluateInputReport report st))) i
  = if i <? 8 then Z.testbit (b5 report) i
    else if i <? 12 then Z.testbit (b6 report) (i - 8)
    else false.
Proof.
  unfold input_report_ok, is_u8.
  intros (_ & _ & _ & _ & _ & H5 & H6) Hb Hi.
  unfold evaluateInputReport. rewrite Hb. cbn [negb Z.eqb Pos.eqb snd buttons].
  rewrite testbit_to_u16, Z.lor_spec, Z.shiftl_spec by lia.
  change 0x0F with (Z.ones 4). rewrite Z.land_ones by lia.
  rewrite Z.testbit_mod_pow2 by lia.
  destruct (Z.ltb_spec i 8) as [H8|H8].
  - rewrite (Z.testbit_neg_r _ (i - 8)) by lia.
    replace (i <? 16) with true by (symmetry; apply Z.ltb_lt; lia).
    rewrite andb_false_r. reflexivity.
  - rewrite (proj1 (below_pow2_bits 8 (b5 report) ltac:(lia) ltac:(lia)))
      by lia.
    rewrite orb_false_r.
    destruct (Z.ltb_spec i 12) as [H12|H12].
    + replace (i <? 16) with true by (symmetry; apply Z.ltb_lt; lia).
      replace (i - 8 <? 4) with true by (symmetry; apply Z.ltb_lt; lia).
      reflexivity.
    + replace (i - 8 <? 4) with false by (symmetry; apply Z.ltb_ge; lia).
      apply andb_false_r.
Qed.

(** X10: after a successful read, the button word has twelve bits: bit
    [i] is bit [i] of byte 5 for the first eight buttons and bit [i - 8]
    of byte 6 for the other four, and the slider bits of byte 6 never
    reach it; [stratcom_is_button_pressed] with the mask of bit [i] is
    non-zero exactly when that bit of the report is set. *)
Theorem X10_buttons_of_a_report
    (report : input_report) (device : stratcom_device) (i : Z) :
  input_report_ok report -> b0 report = 0x01 -> 0 <= i ->
  let device' :=
    snd (stratcom_read_input sizeof_input_report report device) in
  0 <= buttons (stratcom_get_input_state device') < 2 ^ 12
  /\ (stratcom_is_button_pressed device' (2 ^ i) =? 0)
     = negb (if i <? 8 then Z.testbit (b5 report) i
             else if i <? 12 then Z.testbit (b6 report) (i - 8)
             else false).
Proof.
  intros Hok Hb Hi device'. subst device'.
  unfold stratcom_get_input_state, stratcom_is_button_pressed.
  rewrite (read_input_good_report report device Hb).
  split.
  - assert (H0 : 0 <= buttons (snd (evaluateInputReport report
                                      (input_state device)))).
    { unfold evaluateInputReport. rewrite Hb. cbn [negb Z.eqb Pos.eqb snd buttons].
      unfold to_u16. apply Z.mod_pos_bound. lia. }
    split; [exact H0|].
    apply below_pow2_bits; [lia|exact H0|].
    intros j Hj. rewrite (decoded_buttons_bits report _ j Hok Hb) by lia.
    replace (j <? 8) with false by (symmetry; apply Z.ltb_ge; lia).
    replace (j <? 12) with false by (symmetry; apply Z.ltb_ge; lia).
    reflexivity.
  - rewrite land_pow2_eqb_0 by exact Hi.
    rewrite (decoded_buttons_bits report _ i Hok Hb Hi). reflexivity.
Qed.

Lemma X10_witness :
  let report := mk_input_report 0x01 0 0 0 0 0x04 0x38 in
  let device' :=
    snd (stratcom_read_input sizeof_input_report report sample_device) in
  0 <= buttons (stratcom_get_input_state device') < 2 ^ 12
  /\ (stratcom_is_button_pressed device' (2 ^ 11) =? 0)
     = negb (if 11 <? 8 then Z.testbit (b5 report) 11
             else if 11 <? 12 then Z.testbit (b6 report) (11 - 8)
             else false).
Proof.
  apply (X10_buttons_of_a_report
           (mk_input_report 0x01 0 0 0 0 0x04 0x38) sample_device 11).
  - unfold input_report_ok, is_u8. simpl. lia.
  - reflexivity.
  - lia.
Defined.

Lemma lxor_0x3FF (raw : Z) :
  0 <= raw < 2 ^ 10 -> Z.lxor raw 0x3FF = 0x3FF - raw.
Proof.
  intros Hr.
  assert (Hno : Z.land raw (Z.lxor raw 0x3FF) = 0).
  { apply Z.bits_inj'. intros i Hi.
    rewrite Z.land_spec, Z.lxor_spec, Z.bits_0.
    change 0x3FF with (Z.ones 10). rewrite Z.testbit_ones_nonneg by lia.
    destruct (Z.ltb_spec i 10) as [Hlt|Hge].
    - destruct (Z.testbit raw i); reflexivity.
    - rewrite (proj1 (below_pow2_bits 10 raw ltac:(lia) ltac:(lia)))
        by lia.
      reflexivity. }
  pose proof (Z.add_nocarry_lxor _ _ Hno) as Hadd.
  rewrite <- Z.lxor_assoc, Z.lxor_nilpotent, Z.lxor_0_l in Hadd.
  lia.
Qed.

Lemma testbit_9_of_raw (raw : Z) :
  0 <= raw < 2 ^ 10 -> Z.testbit raw 9 = (2 ^ 9 <=? raw).
Proof.
  intros Hr. destruct (Z.leb_spec (2 ^ 9) raw) as [Hge|Hlt].
  - destruct (Z.testbit raw 9) eqn:E; [reflexivity|].
    exfalso.
    assert (raw < 2 ^ 9); [|lia].
    apply below_pow2_bits; [lia..|].
    intros i Hi. destruct (Z.eq_dec i 9) as [->|Hne]; [exact E|].
    apply (proj1 (below_pow2_bits 10 raw ltac:(lia) ltac:(lia))); lia.
  - apply (proj1 (below_pow2_bits 9 raw ltac:(lia) ltac:(lia))); lia.
Qed.

(** The sign rule gives the value in [-512, 511] that is congruent to the
    ten raw bits modulo 1024. *)
Lemma spec_sign_rule_value (raw : Z) :
  0 <= raw < 2 ^ 10 ->
  spec_sign_rule raw = if 2 ^ 9 <=? raw then raw - 2 ^ 10 else raw.
Proof.
  intros Hr. unfold spec_sign_rule.
  rewrite (testbit_9_of_raw raw Hr).
  destruct (2 ^ 9 <=? raw); [|reflexivity].
  rewrite (lxor_0x3FF raw Hr). lia.
Qed.

(** X11: after a successful read every axis value that
    [stratcom_get_axis_value] returns lies between -512 and 511 and is the
    two's complement reading of the ten raw bits of that axis: the raw
    value itself below 512, and the raw value minus 1024 from 512 on. *)
Theorem X11_axis_values_are_ten_bit_signed
    (report : input_report) (device : stratcom_device) (axis : stratcom_axis) :
  input_report_ok report -> b0 report = 0x01 ->
  let device' :=
    snd (stratcom_read_input sizeof_input_report report device) in
  let raw :=
    match axis with
    | STRATCOM_AXIS_X => raw_axisX report
    | STRATCOM_AXIS_Y => raw_axisY report
    | STRATCOM_AXIS_Z => raw_axisZ report
    end in
  - 512 <= stratcom_get_axis_value device' axis <= 511
  /\ stratcom_get_axis_value device' axis
     = (if 512 <=? raw then raw - 1024 else raw)
  /\ (stratcom_get_axis_value device' axis) mod 1024 = raw.
Proof.
  intros Hok Hb device' raw.
  assert (Hraw : 0 <= raw < 2 ^ 10).
  { subst raw. destruct axis;
      [apply raw_axisX_range|apply raw_axisY_range|apply raw_axisZ_range];
      exact Hok. }
  assert (Hval : stratcom_get_axis_value device' axis = spec_sign_rule raw).
  { subst device' raw. unfold stratcom_get_axis_value.
    rewrite (read_input_good_report report device Hb).
    unfold evaluateInputReport. rewrite Hb. cbn [negb Z.eqb Pos.eqb snd].
    destruct axis; cbn [axisX axisY axisZ];
      apply axis_word_of_raw_sign_rule;
      [apply raw_axisX_range|apply raw_axisY_range|apply raw_axisZ_range];
      exact Hok. }
  rewrite Hval, (spec_sign_rule_value raw Hraw).
  change (2 ^ 9) with 512. change (2 ^ 10) with 1024 in *.
  destruct (Z.leb_spec 512 raw) as [Hge|Hlt].
  - split; [lia|]. split; [reflexivity|].
    replace (raw - 1024) with (raw + (-1) * 1024) by lia.
    rewrite Z.mod_add by lia. apply Z.mod_small. lia.
  - split; [lia|]. split; [reflexivity|]. apply Z.mod_small. lia.
Qed.

Lemma X11_witness :
  let report := mk_input_report 0x01 0x00 0xFE 0xFF 0x3F 0x00 0x00 in
  let device' :=
    snd (stratcom_read_input sizeof_input_report report sample_device) in
  let raw := raw_axisZ report in
  - 512 <= stratcom_get_axis_value device' STRATCOM_AXIS_Z <= 511
  /\ stratcom_get_axis_value device' STRATCOM_AXIS_Z
     = (if 512 <=? raw then raw - 1024 else raw)
  /\ (stratcom_get_axis_value device' STRATCOM_AXIS_Z) mod 1024 = raw.
Proof.
  apply (X11_axis_values_are_ten_bit_signed
           (mk_input_report 0x01 0x00 0xFE 0xFF 0x3F 0x00 0x00)
           sample_device STRATCOM_AXIS_Z).
  - unfold input_report_ok, is_u8. simpl. lia.
  - reflexivity.
Defined.

(** ** Freeing lists *)

Lemma list_seg_suffix (h : gmap positive stratcom_input_event)
    (l1 l2 : list (positive * event_payload)) (p : option positive) :
  list_seg h p (l1 ++ l2) -> exists q, list_seg h q l2.
Proof.
  revert p. induction l1 as [|c l1 IH]; intros p Hseg; simpl in Hseg.
  - exists p. exact Hseg.
  - destruct Hseg as (_ & nx & _ & Hrest). apply (IH nx Hrest).
Qed.

(** A list that ends in the null pointer visits no node twice. *)
Lemma list_seg_head_not_in_rest (h : gmap positive stratcom_input_event)
    (a : positive) (x : event_payload) (p : option positive)
    (rest : list (positive * event_payload)) :
  list_seg h p ((a, x) :: rest) -> ~ In a (addresses_of rest).
Proof.
  intros Hseg Hin.
  unfold addresses_of in Hin. apply in_map_iff in Hin.
  destruct Hin as ([a' y] & Ha & Hin). simpl in Ha. subst a'.
  apply in_split in Hin. destruct Hin as (l1 & l2 & Hrest).
  pose proof Hseg as Hseg'. simpl in Hseg'.
  destruct Hseg' as (Hp & nx & _ & Hnx).
  rewrite Hrest in Hnx.
  destruct (list_seg_suffix h l1 ((a, y) :: l2) nx Hnx) as (q & Hq).
  assert (Hqp : q = p).
  { simpl in Hq. destruct Hq as (Hq & _). simpl in Hp. congruence. }
  subst q.
  pose proof (list_seg_functional h p _ _ Hseg Hq) as Heq.
  injection Heq as _ Heq.
  assert (Hlen : length rest = length l2) by (rewrite Heq; reflexivity).
  rewrite Hrest, length_app in Hlen. simpl in Hlen. lia.
Qed.

Lemma list_seg_delete_other (h : gmap positive stratcom_input_event)
    (p : option positive) (cells : list (positive * event_payload))
    (a : positive) :
  ~ In a (addresses_of cells) ->
  list_seg h p cells -> list_seg (delete a h) p cells.
Proof.
  revert p. induction cells as [|c cells IH]; intros p Hna Hseg;
    simpl in *; [exact Hseg|].
  destruct Hseg as (Hp & nx & Hc & Hrest).
  split; [exact Hp|]. exists nx. split.
  - rewrite lookup_delete_ne; [exact Hc|]. intros E. apply Hna. left.
    symmetry. exact E.
  - apply IH; [|exact Hrest]. intros Hin. apply Hna. right. exact Hin.
Qed.

(** Freeing a list deletes its nodes and no other node. *)
Lemma free_list_seg (cells : list (positive * event_payload))
    (h : gmap positive stratcom_input_event) (p : option positive) :
  list_seg h p cells ->
  exists h',
    stratcom_free_input_events h p = Ok h'
    /\ (forall a, In a (addresses_of cells) -> h' !! a = None)
    /\ (forall a, ~ In a (addresses_of cells) -> h' !! a = h !! a).
Proof.
  revert h p. induction cells as [|[a x] cells IH]; intros h p Hseg.
  - simpl in Hseg. subst p. exists h.
    split; [simp stratcom_free_input_events; reflexivity|].
    split; [intros a []|reflexivity].
  - pose proof (list_seg_head_not_in_rest h a x p cells Hseg) as Hfresh.
    simpl in Hseg. destruct Hseg as (-> & nx & Ha & Hrest).
    destruct (IH (delete a h) nx
                (list_seg_delete_other h nx cells a Hfresh Hrest))
      as (h' & Hfree & Hgone & Hkept).
    exists h'. split; [|split].
    + rewrite (free_unfold_allocated h a _ Ha). exact Hfree.
    + intros b [E|Hb]; [|apply Hgone; exact Hb].
      simpl in E. subst b.
      rewrite (Hkept a Hfresh). apply lookup_delete_eq.
    + intros b Hb.
      rewrite Hkept by (intros Hin; apply Hb; right; exact Hin).
      apply lookup_delete_ne. intros E. apply Hb. left. exact E.
Qed.

(** X12: for a list that ends in the null pointer,
    [stratcom_free_input_events] ends with a heap from which exactly the
    nodes of the list are gone: every address of the list is unallocated
    and every other address holds what it held. *)
Theorem X12_free_releases_exactly_the_list
    (h : gmap positive stratcom_input_event) (p : option positive)
    (cells : list (positive * event_payload)) :
  list_seg h p cells ->
  exists h',
    stratcom_free_input_events h p = Ok h'
    /\ (forall a, In a (addresses_of cells) -> h' !! a = None)
    /\ (forall a, ~ In a (addresses_of cells) -> h' !! a = h !! a)
    /\ size h' = (size h - length cells)%nat.
Proof.
  intros Hseg.
  destruct (free_list_seg cells h p Hseg) as (h' & Hfree & Hgone & Hkept).
  exists h'. split; [exact Hfree|]. split; [exact Hgone|].
  split; [exact Hkept|].
  clear Hgone Hkept. revert h p h' Hseg Hfree.
  induction cells as [|[a x] cells IH]; intros h p h' Hseg Hfree.
  - simpl in Hseg. subst p. simp stratcom_free_input_events in Hfree.
    injection Hfree as <-. simpl. lia.
  - pose proof (list_seg_head_not_in_rest h a x p cells Hseg) as Hfresh.
    simpl in Hseg. destruct Hseg as (-> & nx & Ha & Hrest).
    rewrite (free_unfold_allocated h a _ Ha) in Hfree. simpl in Hfree.
    rewrite (IH (delete a h) nx h'
               (list_seg_delete_other h nx cells a Hfresh Hrest) Hfree).
    rewrite (map_size_delete a h), Ha. simpl.
    assert (size h <> O).
    { intros Hz. apply map_size_empty_inv in Hz. subst h.
      rewrite lookup_empty in Ha. discriminate. }
    lia.
Qed.

Lemma X12_witness :
  exists h',
    stratcom_free_input_events (heap sample_list_memory)
      (Some 10%positive) = Ok h'
    /\ (forall a, In a (addresses_of sample_cells) -> h' !! a = None)
    /\ (forall a, ~ In a (addresses_of sample_cells) ->
          h' !! a = heap sample_list_memory !! a)
    /\ size h' = (size (heap sample_list_memory) - length sample_cells)%nat.
Proof.
  apply (X12_free_releases_exactly_the_list
           (heap sample_list_memory) (Some 10%positive) sample_cells).
  simpl. split; [reflexivity|].
  exists (Some 11%positive). split; [reflexivity|].
  split; [reflexivity|].
  exists None. split; reflexivity.
Defined.

(** X13: freeing a list twice is undefined: after
    [stratcom_free_input_events] has freed a list with a first node, a
    second call on the same pointer reads a node that is not allocated. *)
Theorem X13_double_free_is_undefined
    (h h' : gmap positive stratcom_input_event) (first : positive)
    (cells : list (positive * event_payload)) :
  list_seg h (Some first) cells ->
  stratcom_free_input_events h (Some first) = Ok h' ->
  stratcom_free_input_events h' (Some first) = Undefined.
Proof.
  intros Hseg Hfree.
  destruct (free_list_seg cells h (Some first) Hseg)
    as (h2 & Hfree2 & Hgone & _).
  rewrite Hfree in Hfree2. injection Hfree2 as <-.
  apply free_unfold_dangling. apply Hgone.
  destruct cells as [|[a x] cells]; simpl in Hseg; [discriminate|].
  destruct Hseg as (Hp & _). injection Hp as ->. left. reflexivity.
Qed.

Lemma X13_witness :
  stratcom_free_input_events
    (delete 11%positive (delete 10%positive (heap sample_list_memory)))
    (Some 10%positive)
  = Undefined.
Proof.
  apply (X13_double_free_is_undefined (heap sample_list_memory)
           (delete 11%positive (delete 10%positive (heap sample_list_memory)))
           10%positive sample_cells).
  - simpl. split; [reflexivity|].
    exists (Some 11%positive). split; [reflexivity|].
    split; [reflexivity|].
    exists None. split; reflexivity.
  - vm_compute. reflexivity.
Defined.

(** X14: the event constructor always returns, and freeing the list it
    returns gives back the heap of before the call: every node that the
    call allocated is released, whether the list was built or an
    allocation was refused, and no other node is touched. *)
Theorem X14_create_then_free_restores_heap
    (old_state new_state : stratcom_input_state) (m : memory) :
  exists p m',
    stratcom_create_input_events_from_states old_state new_state m
      = Ok (p, m')
    /\ (forall a ev, heap m !! a = Some ev -> heap m' !! a = Some ev)
    /\ stratcom_free_input_events (heap m') p = Ok (heap m).
Proof.
  destruct (create_total old_state new_state m)
    as (p & m' & cells & Hc & Hb).
  exists p, m'. split; [exact Hc|]. split.
  - apply (built_extends _ _ _ _ Hb).
  - apply (built_free _ _ _ _ Hb).
Qed.

(** ** More on the event constructor *)

Lemma built_size (h0 h : gmap positive stratcom_input_event)
    (p : option positive) (cells : list (positive * event_payload)) :
  built h0 h p cells -> size h = (size h0 + length cells)%nat.
Proof.
  induction 1 as [|h p cells a ev Hb IH Ha]; simpl; [lia|].
  rewrite map_size_insert_None by exact Ha. lia.
Qed.

Lemma built_lookup_other (h0 h : gmap positive stratcom_input_event)
    (p : option positive) (cells : list (positive * event_payload))
    (a : positive) :
  built h0 h p cells -> ~ In a (addresses_of cells) -> h !! a = h0 !! a.
Proof.
  induction 1 as [|h p cells b ev Hb IH Hfresh]; intros Hna; [reflexivity|].
  rewrite lookup_insert_ne.
  - apply IH. intros Hin. apply Hna. right. exact Hin.
  - intros E. apply Hna. left. exact E.
Qed.

Lemma built_pointer (h0 h : gmap positive stratcom_input_event)
    (p : option positive) (cells : list (positive * event_payload)) :
  built h0 h p cells -> (p = None <-> cells = []).
Proof.
  intros Hb. destruct Hb; split; intros E;
    first [reflexivity | discriminate E].
Qed.

Lemma events_in_claimed_order_bound
    (old_state new_state : stratcom_input_state) :
  (length (events_in_claimed_order old_state new_state) <= 16)%nat.
Proof.
  rewrite length_events_in_claimed_order.
  pose proof (List.filter_length_le (button_changed old_state new_state)
                canonical_buttons) as Hf.
  change (length canonical_buttons) with 12%nat in Hf.
  destruct (bool_decide (slider old_state = slider new_state)),
    (axisX old_state =? axisX new_state),
    (axisY old_state =? axisY new_state),
    (axisZ old_state =? axisZ new_state); lia.
Qed.

(** X15: two snapshots differ in at most sixteen fields, so a call of the
    constructor allocates at most sixteen nodes: when the allocator grants
    sixteen allocations the call cannot fail; it returns the full list,
    non-null exactly when a field changed, the heap has grown by one node
    per event, and as many allocations are used up. *)
Theorem X15_sixteen_allocations_suffice
    (old_state new_state : stratcom_input_state) (m : memory) :
  (16 <= avail m)%nat ->
  let n := length (events_in_claimed_order old_state new_state) in
  (n <= 16)%nat
  /\ exists p m',
       stratcom_create_input_events_from_states old_state new_state m
         = Ok (p, m')
       /\ returns_events old_state new_state m
            (events_newest_first old_state new_state)
       /\ (p = None <-> n = O)
       /\ size (heap m') = (size (heap m) + n)%nat
       /\ avail m' = (avail m - n)%nat.
Proof.
  intros Hav n.
  pose proof (events_in_claimed_order_bound old_state new_state) as Hn.
  fold n in Hn. split; [exact Hn|].
  assert (Hle : (n <= avail m)%nat) by lia.
  destruct (create_granted old_state new_state m Hle)
    as (p & m' & cells & Hc & Hb & Hmap & Havail).
  assert (Hlen : length cells = n).
  { subst n. rewrite <- (length_rev (events_in_claimed_order _ _)), <- Hmap.
    rewrite length_map. reflexivity. }
  exists p, m'. split; [exact Hc|]. split; [|split; [|split]].
  - rewrite <- rev_events_in_claimed_order.
    apply create_returns_reversed. exact Hle.
  - rewrite (built_pointer _ _ _ _ Hb). rewrite <- Hlen.
    destruct cells; simpl; split; intros H;
      first [reflexivity | discriminate H].
  - rewrite (built_size _ _ _ _ Hb), Hlen. reflexivity.
  - exact Havail.
Qed.

Lemma X15_witness :
  let n := length (events_in_claimed_order
                     sample_old_state sample_new_state) in
  (n <= 16)%nat
  /\ exists p m',
       stratcom_create_input_events_from_states
         sample_old_state sample_new_state sample_list_memory
         = Ok (p, m')
       /\ returns_events sample_old_state sample_new_state
            sample_list_memory
            (events_newest_first sample_old_state sample_new_state)
       /\ (p = None <-> n = O)
       /\ size (heap m') = (size (heap sample_list_memory) + n)%nat
       /\ avail m' = (avail sample_list_memory - n)%nat.
Proof.
  apply (X15_sixteen_allocations_suffice
           sample_old_state sample_new_state sample_list_memory).
  simpl. lia.
Defined.

Lemma button_events_report_change
    (old_state new_state : stratcom_input_state)
    (bs : list stratcom_button) :
  (forall b, In b bs -> In b canonical_buttons) ->
  Forall (event_reports_change old_state new_state)
    (button_events old_state new_state bs).
Proof.
  unfold button_events.
  induction bs as [|b bs IH]; intros Hsub; simpl; [constructor|].
  assert (IH' := IH (fun b' Hb' => Hsub b' (or_intror Hb'))).
  destruct (button_changed old_state new_state b) eqn:Hch; [|exact IH'].
  simpl. constructor; [|exact IH'].
  unfold event_reports_change, button_event.
  split; [apply Hsub; left; reflexivity|]. split; [|reflexivity].
  unfold button_changed in Hch. apply negb_true_iff, Z.eqb_neq in Hch.
  exact Hch.
Qed.

Lemma events_report_change (old_state new_state : stratcom_input_state) :
  Forall (event_reports_change old_state new_state)
    (events_in_claimed_order old_state new_state).
Proof.
  unfold events_in_claimed_order.
  repeat (apply Forall_app; split).
  - unfold slider_events.
    destruct (bool_decide (slider old_state = slider new_state)) eqn:E;
      constructor; [|constructor].
    simpl. split; [reflexivity|].
    apply bool_decide_eq_false in E. exact E.
  - unfold axis_events.
    destruct (Z.eqb_spec (axisX old_state) (axisX new_state));
      constructor; [|constructor].
    simpl. split; [reflexivity|assumption].
  - unfold axis_events.
    destruct (Z.eqb_spec (axisY old_state) (axisY new_state));
      constructor; [|constructor].
    simpl. split; [reflexivity|assumption].
  - unfold axis_events.
    destruct (Z.eqb_spec (axisZ old_state) (axisZ new_state));
      constructor; [|constructor].
    simpl. split; [reflexivity|assumption].
  - apply button_events_report_change. intros b Hb. exact Hb.
Qed.

(** X16: whether or not an allocation is refused, the constructor returns
    a list, and every event in it reports a real change: a slider event
    carries the new slider position and the position differs from the old
    one, an axis event carries the new value of its axis and that value
    differs, a button event names a canonical button whose masked bits
    differ and says "pressed" exactly when the masked new word is not
    zero. *)
Theorem X16_every_event_reports_a_change
    (old_state new_state : stratcom_input_state) (m : memory) :
  exists evs,
    returns_events old_state new_state m evs
    /\ Forall (event_reports_change old_state new_state) evs.
Proof.
  destruct (Nat.le_gt_cases
              (length (events_in_claimed_order old_state new_state))
              (avail m)) as [Hle|Hgt].
  - exists (rev (events_in_claimed_order old_state new_state)).
    split; [apply create_returns_reversed; exact Hle|].
    apply List.Forall_rev. apply events_report_change.
  - exists []. split; [|constructor].
    exists None, {| heap := heap m; avail := O |}, [].
    split; [apply create_refused; exact Hgt|]. split; reflexivity.
Qed.

Lemma create_without_events
    (old_state new_state : stratcom_input_state) (m : memory) :
  events_in_claimed_order old_state new_state = [] ->
  stratcom_create_input_events_from_states old_state new_state m
  = Ok (None, m).
Proof.
  intros Hnone. unfold stratcom_create_input_events_from_states.
  rewrite try_block_push_all, Hnone. reflexivity.
Qed.

(** X17: only the twelve low bits of the button words are compared: when
    two snapshots agree on them, and on slider and axes, the constructor
    returns the null pointer and leaves the free store alone, even if the
    button words differ in a higher bit and the loop over the buttons is
    entered. *)
Theorem X17_high_button_bits_make_no_event
    (old_state new_state : stratcom_input_state) (m : memory) :
  (forall i, 0 <= i < 12 ->
     Z.testbit (buttons old_state) i = Z.testbit (buttons new_state) i) ->
  slider old_state = slider new_state ->
  axisX old_state = axisX new_state ->
  axisY old_state = axisY new_state ->
  axisZ old_state = axisZ new_state ->
  stratcom_create_input_events_from_states old_state new_state m
  = Ok (None, m).
Proof.
  intros Hbits Hs Hx Hy Hz. apply create_without_events.
  unfold events_in_claimed_order, slider_events, axis_events.
  rewrite Hs, Hx, Hy, Hz, !Z.eqb_refl.
  rewrite bool_decide_eq_true_2 by reflexivity.
  cbn [app].
  change canonical_buttons
    with [ 2 ^ 0; 2 ^ 1; 2 ^ 2; 2 ^ 3; 2 ^ 4; 2 ^ 5; 2 ^ 6; 2 ^ 7; 2 ^ 8;
           2 ^ 9; 2 ^ 10; 2 ^ 11 ].
  unfold button_events. cbn [List.filter]. unfold button_changed.
  rewrite !land_pow2_cases by lia.
  rewrite !Hbits by lia.
  rewrite !Z.eqb_refl. reflexivity.
Qed.

Lemma X17_witness :
  stratcom_create_input_events_from_states
    (mk_input_state 0x0003 STRATCOM_SLIDER_2 1 2 3)
    (mk_input_state 0x1003 STRATCOM_SLIDER_2 1 2 3)
    sample_list_memory
  = Ok (None, sample_list_memory).
Proof.
  apply (X17_high_button_bits_make_no_event
           (mk_input_state 0x0003 STRATCOM_SLIDER_2 1 2 3)
           (mk_input_state 0x1003 STRATCOM_SLIDER_2 1 2 3)
           sample_list_memory).
  - intros i Hi. simpl.
    assert (Hc : i = 0 \/ i = 1 \/ i = 2 \/ i = 3 \/ i = 4 \/ i = 5 \/ i = 6
                 \/ i = 7 \/ i = 8 \/ i = 9 \/ i = 10 \/ i = 11) by lia.
    repeat (destruct Hc as [->|Hc]; [reflexivity|]).
    subst i. reflexivity.
  - reflexivity.
  - reflexivity.
  - reflexivity.
  - reflexivity.
Defined.

(** ** Appending, then freeing *)

Lemma last_cell_in_list (cells : list (positive * event_payload))
    (c : positive * event_payload) :
  last cells = Some c -> In c cells.
Proof.
  induction cells as [|c1 cells IH]; [discriminate|].
  destruct cells as [|c2 cells]; simpl.
  - intros [= ->]. left. reflexivity.
  - intros H. right. apply IH. exact H.
Qed.

(** What the append leaves: the constructor's heap with the link of the
    last node written, in which the existing list continues into the
    generated one. *)
Lemma append_joins_lists
    (fuel : nat) (first : positive) (cells : list (positive * event_payload))
    (old_state new_state : stratcom_input_state) (m : memory) :
  list_seg (heap m) (Some first) cells ->
  (length cells <= S fuel)%nat ->
  exists q m1 new_cells t ev m',
    built (heap m) (heap m1) q new_cells
    /\ last cells = Some (t, ev)
    /\ stratcom_append_input_events_from_states
         fuel (Some first) old_state new_state m
       = Ok (q, m')
    /\ heap m' = <[t := {| payload := ev; next := q |}]> (heap m1)
    /\ list_seg (heap m') (Some first) (cells ++ new_cells).
Proof.
  intros Hseg Hlen.
  destruct (create_total old_state new_state m)
    as (q & m1 & new_cells & Hcreate & Hbuilt).
  pose proof (list_seg_extends _ _ _ _ (built_extends _ _ _ _ Hbuilt) Hseg)
    as Hseg1.
  destruct (walk_to_tail_last _ _ fuel first Hseg Hlen)
    as (t & ev & Hlast & Ht & _).
  destruct (walk_to_tail_last _ _ fuel first Hseg1 Hlen)
    as (t1 & ev1 & Hlast1 & Ht1 & Hwalk).
  rewrite Hlast in Hlast1. injection Hlast1 as <- <-.
  exists q, m1, new_cells, t, ev,
    {| heap := <[t := {| payload := ev; next := q |}]> (heap m1);
       avail := avail m1 |}.
  split; [exact Hbuilt|]. split; [exact Hlast|]. split; [|split].
  - unfold stratcom_append_input_events_from_states.
    rewrite Hcreate, Hwalk, Ht1. reflexivity.
  - reflexivity.
  - apply (list_seg_link_tail _ _ _ _ _ _ _ Hseg1 Hlast Ht1).
    apply list_seg_insert_other; [|apply (built_list_seg _ _ _ _ Hbuilt)].
    intros c Hc E.
    pose proof (built_cells_fresh _ _ _ _ Hbuilt c Hc) as Hfresh.
    rewrite E, Ht in Hfresh. discriminate.
Qed.

(** X18: after an append, the returned pointer is not a list of its own
    but the rest of the existing list.  Freeing the existing list from its
    first node releases the old and the generated nodes together and
    leaves every other node of the heap of before the append; freeing the
    returned pointer after that, when it is not null, is undefined. *)
Theorem X18_append_then_free_from_first
    (fuel : nat) (first : positive) (cells : list (positive * event_payload))
    (old_state new_state : stratcom_input_state) (m : memory) :
  list_seg (heap m) (Some first) cells ->
  (length cells <= S fuel)%nat ->
  exists q m' h'',
    stratcom_append_input_events_from_states
      fuel (Some first) old_state new_state m
    = Ok (q, m')
    /\ stratcom_free_input_events (heap m') (Some first) = Ok h''
    /\ (forall a, In a (addresses_of cells) -> h'' !! a = None)
    /\ (forall a, ~ In a (addresses_of cells) -> h'' !! a = heap m !! a)
    /\ (q <> None -> stratcom_free_input_events h'' q = Undefined).
Proof.
  intros Hseg Hlen.
  destruct (append_joins_lists fuel first cells old_state new_state m
              Hseg Hlen)
    as (q & m1 & new_cells & t & ev & m' & Hbuilt & Hlast & Happ & Hheap
        & Hjoined).
  destruct (free_list_seg _ _ _ Hjoined) as (h'' & Hfree & Hgone & Hkept).
  unfold addresses_of in Hgone, Hkept. rewrite map_app in Hgone, Hkept.
  fold (addresses_of cells) in Hgone, Hkept.
  fold (addresses_of new_cells) in Hgone, Hkept.
  exists q, m', h''. split; [exact Happ|]. split; [exact Hfree|].
  split; [|split].
  - intros a Ha. apply Hgone. apply in_or_app. left. exact Ha.
  - intros a Ha.
    destruct (in_dec Pos.eq_dec a (addresses_of new_cells)) as [Hn|Hn].
    + rewrite (Hgone a (in_or_app _ _ _ (or_intror Hn))).
      unfold addresses_of in Hn. apply in_map_iff in Hn.
      destruct Hn as (c & <- & Hc).
      symmetry. apply (built_cells_fresh _ _ _ _ Hbuilt c Hc).
    + rewrite Hkept
        by (intros Hin; apply in_app_or in Hin; destruct Hin; contradiction).
      rewrite Hheap, lookup_insert_ne.
      * apply (built_lookup_other _ _ _ _ a Hbuilt Hn).
      * intros <-. apply Ha. unfold addresses_of.
        apply (in_map fst cells (t, ev)).
        apply last_cell_in_list. exact Hlast.
  - intros Hq. destruct q as [a0|]; [|contradiction].
    apply free_unfold_dangling. apply Hgone. apply in_or_app. right.
    inversion Hbuilt; subst. left. reflexivity.
Qed.

Lemma X18_witness :
  exists q m' h'',
    stratcom_append_input_events_from_states
      1 (Some 10%positive) sample_old_state sample_new_state
      sample_list_memory
    = Ok (q, m')
    /\ stratcom_free_input_events (heap m') (Some 10%positive) = Ok h''
    /\ (forall a, In a (addresses_of sample_cells) -> h'' !! a = None)
    /\ (forall a, ~ In a (addresses_of sample_cells) ->
          h'' !! a = heap sample_list_memory !! a)
    /\ (q <> None -> stratcom_free_input_events h'' q = Undefined).
Proof.
  apply (X18_append_then_free_from_first 1 10%positive sample_cells
           sample_old_state sample_new_state sample_list_memory).
  - simpl. split; [reflexivity|].
    exists (Some 11%positive). split; [reflexivity|].
    split; [reflexivity|].
    exists None. split; reflexivity.
  - simpl. lia.
Defined.

Lemma walk_in_a_cycle (h : gmap positive stratcom_input_event)
    (inside : positive -> Prop) (fuel : nat) (a : positive) :
  (forall b, inside b ->
     exists ev c, h !! b = Some ev /\ next ev = Some c /\ inside c) ->
  inside a ->
  walk_to_tail fuel h a = OutOfFuel.
Proof.
  intros Hclosed. revert a.
  induction fuel as [|k IH]; intros a Ha;
    destruct (Hclosed a Ha) as (ev & c & Hev & Hnext & Hc); simpl;
    rewrite Hev, Hnext; [reflexivity|apply IH; exact Hc].
Qed.

(** X19: on a list without an end (from [first] on, every node has a
    successor among the nodes reached) the walk to the tail never finds a
    null link: however many iterations it is given, the append does not
    return. *)
Theorem X19_append_to_a_cyclic_list_never_returns
    (inside : positive -> Prop) (fuel : nat) (first : positive)
    (old_state new_state : stratcom_input_state) (m : memory) :
  (forall b, inside b ->
     exists ev c, heap m !! b = Some ev /\ next ev = Some c /\ inside c) ->
  inside first ->
  stratcom_append_input_events_from_states
    fuel (Some first) old_state new_state m
  = OutOfFuel.
Proof.
  intros Hclosed Hfirst.
  destruct (create_total old_state new_state m)
    as (q & m1 & new_cells & Hcreate & Hbuilt).
  unfold stratcom_append_input_events_from_states. rewrite Hcreate.
  rewrite (walk_in_a_cycle (heap m1) inside fuel first); [reflexivity| |].
  - intros b Hb. destruct (Hclosed b Hb) as (ev & c & Hev & Hnext & Hc).
    exists ev, c. split; [|split; assumption].
    apply (built_extends _ _ _ _ Hbuilt). exact Hev.
  - exact Hfirst.
Qed.

Lemma X19_witness :
  stratcom_append_input_events_from_states
    100 (Some 5%positive) sample_old_state sample_new_state
    {| heap :=
         {[ 5%positive :=
              {| payload := (STRATCOM_INPUT_EVENT_SLIDER,
                             desc_slider STRATCOM_SLIDER_1);
                 next := Some 5%positive |} ]};
       avail := 16 |}
  = OutOfFuel.
Proof.
  apply (X19_append_to_a_cyclic_list_never_returns
           (fun b => b = 5%positive) 100 5%positive).
  - intros b ->. simpl.
    exists {| payload := (STRATCOM_INPUT_EVENT_SLIDER,
                          desc_slider STRATCOM_SLIDER_1);
              next := Some 5%positive |}, 5%positive.
    split; [reflexivity|]. split; reflexivity.
  - reflexivity.
Defined.
